(** * Verification of the quint-code assurance engine

    Shallow embedding of the parts of the engine that the claims are about:
    - the assurance calculator (package [assurance], exercised by
      [TestCalculateReliability_*]),
    - the JSON-RPC tool dispatcher [Server.handleToolsCall] of
      [internal/fpf/server.go],
    - the tool bodies it calls ([VerifyHypothesis], [LinkHolons],
      [ProposeHypothesis], [ResetCycle], [CalculateR]).

    Scores are exact rationals: every value the code and its tests compare
    (0.0, 0.1, 0.2, 0.5, 0.6, 0.9, 1.0) is reached by the same operations
    without rounding. Timestamps are integers. *)

From Stdlib Require Import QArith Qminmax ZArith String Ascii List Bool Lia.
From stdpp Require Import base gmap strings pretty.
Import ListNotations.
Open Scope string_scope.
Set Warnings "-register-all".

(* ================================================================== *)
(** ** Store rows used by the calculator *)

(** Row of table [evidence]. [ev_valid_until = None] is a NULL column. *)
Record Evidence := mkEvidence {
  ev_id : string;
  ev_holon_id : string;
  ev_type : string;
  ev_verdict : string;
  ev_valid_until : option Z;
  ev_is_stale : bool;
  ev_stale_reason : string;
  ev_content : string;
  ev_assurance_level : string;
  ev_carrier_ref : string
}.

(** Row of table [relations]. *)
Record Relation := mkRelation {
  rel_source_id : string;
  rel_target_id : string;
  rel_type : string;
  rel_cl : Z
}.

(** Row of table [waivers]. *)
Record Waiver := mkWaiver {
  w_evidence_id : string;
  w_until : Z
}.

(** The three tables the calculator reads. *)
Record CalcDB := mkCalcDB {
  db_evidence : list Evidence;
  db_relations : list Relation;
  db_waivers : list Waiver
}.

Definition mem (x : string) (l : list string) : bool :=
  existsb (String.eqb x) l.

Definition qmin (a b : Q) : Q := if Qle_bool a b then a else b.

(** Scores are clamped to [0.0, 1.0] after each step. *)
Definition clamp01 (q : Q) : Q :=
  if Qle_bool q 0 then 0 else if Qle_bool 1 q then 1 else q.

(* ================================================================== *)
(** ** Assurance calculator *)

Module Assurance.

(** Modelled from the spec: the package [assurance] ([Calculator],
    [CalculateReliability]) is not in the repository snapshot; only its
    tests are. The per-item score follows §4.2 step 2 of the spec; an
    evidence item covered by a waiver whose [waived_until >= now] counts
    as pass with score 1.0. A verdict other than pass/degrade earns no
    credit, like fail. *)
Definition waived (db : CalcDB) (now : Z) (e : Evidence) : bool :=
  existsb (fun w => String.eqb (w_evidence_id w) (ev_id e) && (now <=? w_until w)%Z)
          (db_waivers db).

Definition verdict_score (e : Evidence) : Q * list string :=
  if String.eqb (ev_verdict e) "pass" then
    if String.eqb (ev_type e) "external"
    then (9 # 10, ["External evidence CL2 penalty applied"])
    else (1 # 1, [])
  else if String.eqb (ev_verdict e) "degrade" then (1 # 2, [])
  else (0 # 1, ["Evidence fail"]).

Definition decayed (now : Z) (e : Evidence) : bool :=
  match ev_valid_until e with
  | Some t => (t <? now)%Z
  | None => false
  end.

Definition item_score (db : CalcDB) (now : Z) (e : Evidence) : Q * list string :=
  if waived db now e then (1 # 1, [])
  else if ev_is_stale e then (2 # 10, ["Evidence stale: " ++ ev_stale_reason e])
  else if decayed now e then
    (1 # 10, ["Evidence decayed past " ++ match ev_valid_until e with
                                            | Some t => pretty t | None => "" end])
  else verdict_score e.

(** Self score: WLNK (minimum) over the holon's evidence; no evidence
    gives 0.0 and the factor "No evidence". Returns the score, the
    factors and the ids of the stale (non-waived) evidence. *)
Definition holon_evidence (db : CalcDB) (h : string) : list Evidence :=
  List.filter (fun e => String.eqb (ev_holon_id e) h) (db_evidence db).

Definition self_score (db : CalcDB) (now : Z) (h : string)
    : Q * list string * list string :=
  match holon_evidence db h with
  | [] => (0 # 1, ["No evidence"], [])
  | evs =>
      (fold_right (fun e acc => qmin (fst (item_score db now e)) acc) (1 # 1) evs,
       flat_map (fun e => snd (item_score db now e)) evs,
       map ev_id (List.filter (fun e => negb (waived db now e) && ev_is_stale e) evs))
  end.

(** Only componentOf and constituentOf edges carry R_eff. As the tests
    [TestCalculateReliability_WeakestLink] and [_CLPenalty] fix it, the
    dependencies of a holon [h] are the sources of such edges whose target
    is [h] (row [('B', 'A', 'componentOf', cl)] makes A depend on B). *)
Definition is_dependency_type (t : string) : bool :=
  String.eqb t "componentOf" || String.eqb t "constituentOf".

Definition deps_of (rels : list Relation) (h : string) : list (string * Z) :=
  map (fun r => (rel_source_id r, rel_cl r))
      (List.filter (fun r => is_dependency_type (rel_type r) && String.eqb (rel_target_id r) h)
              rels).

(** CL penalty factor. CL3 -> 1.0 and CL2 -> 0.9 as in the spec; CL1 is
    0.6, the value [TestCalculateReliability_CLPenalty] asserts for a CL1
    edge over a passing dependency (the spec's prose says 0.7). The schema
    admits level 0, which the spec does not price: no penalty. *)
Definition cl_factor (cl : Z) : Q :=
  match cl with
  | 3%Z => 1 # 1
  | 2%Z => 9 # 10
  | 1%Z => 6 # 10
  | _ => 1 # 1
  end.

(** [r_dependency_reports] lists each dependency edge (target id, CL) with
    the dependency's report, or [None] when the edge closes a cycle on the
    current path and is skipped. *)
Inductive Report := mkReport {
  r_holon_id : string;
  r_self_score : Q;
  r_final_score : Q;
  r_weakest_link : string;
  r_factors : list string;
  r_stale_evidence : list string;
  r_stale_penalty : Q;
  r_dependency_reports : list (string * Z * option Report)
}.

Fixpoint mapM {A B} (g : A -> option B) (l : list A) : option (list B) :=
  match l with
  | [] => Some []
  | x :: t =>
      match g x with
      | None => None
      | Some y => match mapM g t with None => None | Some ys => Some (y :: ys) end
      end
  end.

(** Penalised score of a dependency that was not skipped. *)
Definition penalised (o : string * Z * option Report) : list (string * Q) :=
  match o with
  | (d, cl, Some r) => [(d, clamp01 (r_final_score r * cl_factor cl))]
  | (_, _, None) => []
  end.

Definition cycle_factor (o : string * Z * option Report) : list string :=
  match o with
  | (d, _, None) => ["cycle-broken: " ++ d]
  | _ => []
  end.

(** Minimum penalised dependency score; the first minimum in edge order
    is the weakest link. *)
Definition weakest (l : list (string * Q)) : option (string * Q) :=
  fold_left (fun acc ds =>
               match acc with
               | None => Some ds
               | Some (_, s0) => if negb (Qle_bool s0 (snd ds)) then Some ds else acc
               end) l None.

Definition finalize (h : string) (self : Q * list string * list string)
    (deps : list (string * Z * option Report)) : Report :=
  let '(s, fs, stale) := self in
  let pen := match stale with [] => 0 # 1 | _ => Qminus (1 # 1) s end in
  let factors := app fs (flat_map cycle_factor deps) in
  match weakest (flat_map penalised deps) with
  | None => mkReport h s s h factors stale pen deps
  | Some (d, ds) =>
      mkReport h s (clamp01 (qmin s ds)) (if Qle_bool s ds then h else d)
               factors stale pen deps
  end.

(** Depth-first traversal with the set of holons on the current path.
    [fuel] only bounds the recursion; [CalculateReliability] gives one unit
    per node the traversal can reach, and [calculate_terminates] shows it
    never runs out. *)
Fixpoint calc (db : CalcDB) (now : Z) (fuel : nat) (visited : list string)
    (h : string) : option Report :=
  match fuel with
  | O => None
  | S f =>
      let visited' := h :: visited in
      match mapM (fun dc : string * Z =>
                    let '(d, cl) := dc in
                    if mem d visited' then Some (d, cl, None)
                    else option_map (fun r => (d, cl, Some r)) (calc db now f visited' d))
                 (deps_of (db_relations db) h) with
      | None => None
      | Some ds => Some (finalize h (self_score db now h) ds)
      end
  end.

(** Every holon the traversal can visit from [h]. *)
Definition calc_nodes (db : CalcDB) (h : string) : list string :=
  h :: map rel_source_id (db_relations db).

Definition CalculateReliability (db : CalcDB) (now : Z) (h : string) : option Report :=
  calc db now (S (length (calc_nodes db h))) [] h.

Definition final_score (db : CalcDB) (now : Z) (h : string) : option Q :=
  option_map r_final_score (CalculateReliability db now h).

(** A fresh, non-stale, internal piece of passing evidence. *)
Definition fresh_internal_pass (now : Z) (e : Evidence) : bool :=
  String.eqb (ev_verdict e) "pass" && negb (String.eqb (ev_type e) "external")
  && negb (ev_is_stale e) && negb (decayed now e).

(** Termination of the traversal: the number of nodes of [N] that are not
    on the current path drops at every recursive call. *)
Definition unvisited (N visited : list string) : nat :=
  length (List.filter (fun x => negb (mem x visited)) N).

(** Reachability along the dependency edges the calculator follows. *)
Inductive dep_reach (rels : list Relation) : string -> string -> Prop :=
| dep_reach_refl h : dep_reach rels h h
| dep_reach_step h d cl t :
    In (d, cl) (deps_of rels h) -> dep_reach rels d t -> dep_reach rels h t.

End Assurance.

(* ================================================================== *)
(** ** Persistent store and server state *)

Inductive Phase := PhaseIdle | PhaseAbduction | PhaseDeduction | PhaseInduction
                 | PhaseAudit | PhaseDecision.

Definition phase_name (p : Phase) : string :=
  match p with
  | PhaseIdle => "IDLE" | PhaseAbduction => "ABDUCTION" | PhaseDeduction => "DEDUCTION"
  | PhaseInduction => "INDUCTION" | PhaseAudit => "AUDIT" | PhaseDecision => "DECISION"
  end.

(** Row of table [holons] (the columns the tools read). *)
Record Holon := mkHolon {
  h_id : string;
  h_type : string;
  h_kind : string;
  h_layer : string;
  h_title : string;
  h_content : string;
  h_context_id : string;
  h_scope : string
}.

(** Row of table [audit_log]; [a_input] is the argument map the input
    hash is computed from. *)
Record AuditEntry := mkAuditEntry {
  a_tool_name : string;
  a_operation : string;
  a_actor : string;
  a_target_id : string;
  a_result : string;
  a_input : gmap string string;
  a_details : string
}.

(** The database: the tables the claims mention and the persisted phase
    of table [fpf_state]. *)
Record DB := mkDB {
  holons : list Holon;
  evidence : list Evidence;
  relations : list Relation;
  waivers : list Waiver;
  audit_log : list AuditEntry;
  fpf_phase : Phase
}.

(** Server state: the in-memory [FSM.State.Phase], the database and the
    clock (a day number). *)
Record State := mkState {
  fsm_phase : Phase;
  db : DB;
  clock : Z
}.

Definition calc_view (d : DB) : CalcDB :=
  mkCalcDB (evidence d) (relations d) (waivers d).

Definition set_fsm_phase (p : Phase) (st : State) : State :=
  mkState p (db st) (clock st).

Definition set_db (d : DB) (st : State) : State :=
  mkState (fsm_phase st) d (clock st).

(** Modelled from the spec: [FSM.SaveState] persists the active phase
    (§4.1 "FPF state: read/write active phase"). A failed save only
    prints a warning in [handleToolsCall]; the model takes the save to
    succeed. *)
Definition save_state (st : State) : State :=
  let d := db st in
  set_db (mkDB (holons d) (evidence d) (relations d) (waivers d) (audit_log d)
               (fsm_phase st)) st.

(** Modelled from the spec: [Tools.AuditLog] appends one entry. *)
Definition audit_append (tool op actor target result : string)
    (input : gmap string string) (details : string) (st : State) : State :=
  let d := db st in
  set_db (mkDB (holons d) (evidence d) (relations d) (waivers d)
               (audit_log d ++ [mkAuditEntry tool op actor target result input details])
               (fpf_phase d)) st.

(* ================================================================== *)
(** ** Dispatcher: [Server.handleToolsCall] *)

(** A decoded JSON value, as [encoding/json] produces it for an
    [interface{}]: numbers are float64 (exact rationals here). *)
Inductive JSON :=
| JNull
| JBool (b : bool)
| JNum (q : Q)
| JStr (s : string)
| JArr (l : list JSON)
| JObj (l : list (string * JSON)).

Inductive Result := Ok (output : string) | Err (msg : string).

Inductive Response :=
| RpcError (code : Z) (message : string)
| ToolResult (text : string) (is_error : bool).

Record ResolveInput := mkResolveInput {
  ri_decision_id : string;
  ri_resolution : string;
  ri_reference : string;
  ri_superseded_by : string;
  ri_notes : string;
  ri_valid_until : string;
  ri_criteria_verified : bool
}.

(** The methods of [*Tools] the dispatcher calls. *)
Record Tools := mkTools {
  CheckPreconditions : string -> gmap string string -> State -> option string;
  Internalize : State -> State * Result;
  Search : string -> string -> string -> string -> string -> Z -> State -> State * Result;
  Resolve : ResolveInput -> State -> State * Result;
  Implement : string -> State -> State * Result;
  LinkHolons : string -> string -> Z -> State -> State * Result;
  ProposeHypothesis : string -> string -> string -> string -> string -> string ->
                      list string -> Z -> State -> State * Result;
  VerifyHypothesis : string -> string -> string -> string -> State -> State * Result;
  ManageEvidence : Phase -> string -> string -> string -> string -> string -> string ->
                   string -> Z -> State -> State * Result;
  AuditEvidence : string -> string -> State -> State * Result;
  FinalizeDecision : string -> string -> list string -> string -> string -> string ->
                     string -> string -> string -> State -> State * Result;
  VisualizeAudit : string -> State -> State * Result;
  CalculateR : string -> State -> State * Result;
  ResetCycle : string -> State -> State * Result
}.

(** [arg(k)]: the string under [k], or "" for a missing or non-string value. *)
Definition arg (arguments : gmap string JSON) (k : string) : string :=
  match arguments !! k with Some (JStr s) => s | _ => "" end.

(** [args]: the string-valued entries only. *)
Definition string_args (arguments : gmap string JSON) : gmap string string :=
  omap (fun v => match v with JStr s => Some s | _ => None end) arguments.

(** Go's [int(f)] for a float64: truncation toward zero. *)
Definition go_int (q : Q) : Z := Z.quot (Qnum q) (Zpos (Qden q)).

(** [params.Arguments[k].(float64)] converted with [int], when it is a number. *)
Definition num_arg (arguments : gmap string JSON) (k : string) : option Z :=
  match arguments !! k with Some (JNum q) => Some (go_int q) | _ => None end.

(** [params.Arguments[k].([]interface{})], keeping the string elements. *)
Definition string_list_arg (arguments : gmap string JSON) (k : string) : list string :=
  match arguments !! k with
  | Some (JArr l) => flat_map (fun v => match v with JStr s => [s] | _ => [] end) l
  | _ => []
  end.

Definition bool_arg (arguments : gmap string JSON) (k : string) : bool :=
  match arguments !! k with Some (JBool b) => b | _ => false end.

Definition default_Z (d : Z) (o : option Z) : Z :=
  match o with Some z => z | None => d end.

(** The tool method a [tools/call] reaches and the arguments it receives:
    one constructor per case of the [switch params.Name]. *)
Inductive ToolCall :=
| TC_Internalize
| TC_Search (query scope layer_filter status_filter affected_scope_filter : string) (limit : Z)
| TC_Resolve (input : ResolveInput)
| TC_Implement (decision_id : string)
| TC_Link (source_id target_id : string) (cl : Z)
| TC_Propose (title content scope kind rationale decision_context : string)
             (depends_on : list string) (dependency_cl : Z)
| TC_Verify (hypothesis_id checks_json verdict carrier_files : string)
| TC_Test (hypothesis_id test_type result verdict ass_level carrier_files : string)
| TC_Audit (hypothesis_id risks : string)
| TC_Decide (title winner_id : string) (rejected_ids : list string)
            (context decision rationale consequences characteristics contract : string)
| TC_AuditTree (holon_id : string)
| TC_CalculateR (holon_id : string)
| TC_Reset (reason : string)
| TC_Unknown (name : string).

Definition select (name : string) (arguments : gmap string JSON) : ToolCall :=
  let arg := arg arguments in
  if String.eqb name "quint_internalize" then TC_Internalize
  else if String.eqb name "quint_search" then
    TC_Search (arg "query") (arg "scope") (arg "layer_filter") (arg "status_filter")
              (arg "affected_scope_filter") (default_Z 10 (num_arg arguments "limit"))
  else if String.eqb name "quint_resolve" then
    TC_Resolve (mkResolveInput (arg "decision_id") (arg "resolution") (arg "reference")
                  (arg "superseded_by") (arg "notes") (arg "valid_until")
                  (bool_arg arguments "criteria_verified"))
  else if String.eqb name "quint_implement" then TC_Implement (arg "decision_id")
  else if String.eqb name "quint_link" then
    TC_Link (arg "source_id") (arg "target_id") (default_Z 3 (num_arg arguments "congruence_level"))
  else if String.eqb name "quint_propose" then
    TC_Propose (arg "title") (arg "content") (arg "scope") (arg "kind") (arg "rationale")
               (arg "decision_context") (string_list_arg arguments "depends_on")
               (default_Z 3 (num_arg arguments "dependency_cl"))
  else if String.eqb name "quint_verify" then
    TC_Verify (arg "hypothesis_id") (arg "checks_json") (arg "verdict") (arg "carrier_files")
  else if String.eqb name "quint_test" then
    TC_Test (arg "hypothesis_id") (arg "test_type") (arg "result") (arg "verdict")
            (if String.eqb (arg "verdict") "PASS" then "L2" else "L1")
            (if String.eqb (arg "carrier_files") "" then "test-runner" else arg "carrier_files")
  else if String.eqb name "quint_audit" then TC_Audit (arg "hypothesis_id") (arg "risks")
  else if String.eqb name "quint_decide" then
    TC_Decide (arg "title") (arg "winner_id") (string_list_arg arguments "rejected_ids")
              (arg "context") (arg "decision") (arg "rationale") (arg "consequences")
              (arg "characteristics") (arg "contract")
  else if String.eqb name "quint_audit_tree" then TC_AuditTree (arg "holon_id")
  else if String.eqb name "quint_calculate_r" then TC_CalculateR (arg "holon_id")
  else if String.eqb name "quint_reset" then TC_Reset (arg "reason")
  else TC_Unknown name.

(** [computeValidUntil]: 90 days for internal, 60 for external, else 90. *)
Definition computeValidUntil (testType : string) (today : Z) : Z :=
  if String.eqb testType "internal" then today + 90
  else if String.eqb testType "external" then today + 60
  else today + 90.

(** Phase updates [handleToolsCall] performs before the tool body. *)
Definition prep (call : ToolCall) (st : State) : State :=
  match call with
  | TC_Propose _ _ _ _ _ _ _ _ => save_state (set_fsm_phase PhaseAbduction st)
  | TC_Verify _ _ _ _ => save_state (set_fsm_phase PhaseDeduction st)
  | TC_Test _ _ _ _ _ _ => save_state (set_fsm_phase PhaseInduction st)
  | TC_Decide _ _ _ _ _ _ _ _ _ => set_fsm_phase PhaseDecision st
  | _ => st
  end.

(** The tool body itself. *)
Definition invoke (T : Tools) (call : ToolCall) (st : State) : State * Result :=
  match call with
  | TC_Internalize => Internalize T st
  | TC_Search q sc lf sf af l => Search T q sc lf sf af l st
  | TC_Resolve i => Resolve T i st
  | TC_Implement d => Implement T d st
  | TC_Link s t cl => LinkHolons T s t cl st
  | TC_Propose ti co sc k ra dc deps cl => ProposeHypothesis T ti co sc k ra dc deps cl st
  | TC_Verify h c v cf => VerifyHypothesis T h c v cf st
  | TC_Test h ty r v al cf =>
      ManageEvidence T PhaseInduction "add" h ty r v al cf (computeValidUntil ty (clock st)) st
  | TC_Audit h r => AuditEvidence T h r st
  | TC_Decide ti w rj c d ra cq ch ct => FinalizeDecision T ti w rj c d ra cq ch ct st
  | TC_AuditTree h => VisualizeAudit T h st
  | TC_CalculateR h => CalculateR T h st
  | TC_Reset r => ResetCycle T r st
  | TC_Unknown n => (st, Err ("unknown tool: " ++ n))
  end.

(** Phase update after the body: a successful decide returns to IDLE. *)
Definition post (call : ToolCall) (r : Result) (st : State) : State :=
  match call, r with
  | TC_Decide _ _ _ _ _ _ _ _ _, Ok _ => save_state (set_fsm_phase PhaseIdle st)
  | _, _ => st
  end.

Definition run (T : Tools) (call : ToolCall) (st : State) : State * Result :=
  let '(st2, r) := invoke T call (prep call st) in (post call r st2, r).

(** [handleToolsCall]. [params] is the outcome of decoding the request's
    params into [{name, arguments}]: [None] when [json.Unmarshal] fails. *)
Definition handleToolsCall (T : Tools) (params : option (string * gmap string JSON))
    (st : State) : State * Response :=
  match params with
  | None => (st, RpcError (-32700) "Invalid params")
  | Some (name, arguments) =>
      let args := string_args arguments in
      match CheckPreconditions T name args st with
      | Some perr =>
          (audit_append name "precondition_failed" "agent" "" "BLOCKED" args perr st,
           ToolResult perr true)
      | None =>
          let '(st', r) := run T (select name arguments) st in
          (st', match r with Ok o => ToolResult o false | Err e => ToolResult e true end)
      end
  end.


(* ================================================================== *)
(** ** Tool bodies *)

(** Modelled from the spec: [tools.go] is not part of the sources; the
    bodies below follow §4.3-4.4 of the specification and the tests of
    [tools_test.go] that pin them ([TestLinkHolons_*], [TestPropose_*],
    [TestVerifyHypothesis], [TestManageEvidence_*Stale*],
    [TestResetCycle_*], [TestSlugify]). Tool outputs are abbreviated to
    the lines the tests look for. *)

Module ToolModel.

Definition find_holon (hs : list Holon) (id : string) : option Holon :=
  find (fun h => String.eqb (h_id h) id) hs.

Definition holon_exists (d : DB) (id : string) : bool :=
  match find_holon (holons d) id with Some _ => true | None => false end.

Definition layer_of (st : State) (id : string) : option string :=
  option_map h_layer (find_holon (holons (db st)) id).

Definition with_layer (l : string) (h : Holon) : Holon :=
  mkHolon (h_id h) (h_type h) (h_kind h) l (h_title h) (h_content h) (h_context_id h) (h_scope h).

Definition not_stale (e : Evidence) : Evidence :=
  mkEvidence (ev_id e) (ev_holon_id e) (ev_type e) (ev_verdict e) (ev_valid_until e)
             false "" (ev_content e) (ev_assurance_level e) (ev_carrier_ref e).

(** [UPDATE holons SET layer = l WHERE id = id]. *)
Definition set_layer (id l : string) (d : DB) : DB :=
  mkDB (map (fun h => if String.eqb (h_id h) id then with_layer l h else h) (holons d))
       (evidence d) (relations d) (waivers d) (audit_log d) (fpf_phase d).

(** [UPDATE evidence SET is_stale = 0, stale_reason = '' WHERE holon_id = id]. *)
Definition clear_stale (id : string) (d : DB) : DB :=
  mkDB (holons d)
       (map (fun e => if String.eqb (ev_holon_id e) id then not_stale e else e) (evidence d))
       (relations d) (waivers d) (audit_log d) (fpf_phase d).

Definition add_evidence (e : Evidence) (d : DB) : DB :=
  mkDB (holons d) (evidence d ++ [e]) (relations d) (waivers d) (audit_log d) (fpf_phase d).

Definition add_holon (h : Holon) (d : DB) : DB :=
  mkDB (holons d ++ [h]) (evidence d) (relations d) (waivers d) (audit_log d) (fpf_phase d).

Definition same_key (r1 r2 : Relation) : bool :=
  String.eqb (rel_source_id r1) (rel_source_id r2) && String.eqb (rel_target_id r1) (rel_target_id r2)
  && String.eqb (rel_type r1) (rel_type r2).

(** Insert into [relations], whose primary key is (source, target, type):
    a row with the same key is replaced. *)
Definition add_relation (r : Relation) (d : DB) : DB :=
  mkDB (holons d) (evidence d)
       (List.filter (fun r' => negb (same_key r r')) (relations d) ++ [r])
       (waivers d) (audit_log d) (fpf_phase d).

Definition upd (f : DB -> DB) (st : State) : State := set_db (f (db st)) st.

Definition fresh_evidence_id (d : DB) : string := "ev-" ++ pretty (length (evidence d)).

Definition lower (c : Ascii.ascii) : Ascii.ascii :=
  let n := Ascii.nat_of_ascii c in
  if (65 <=? n)%nat && (n <=? 90)%nat then Ascii.ascii_of_nat (n + 32) else c.

Definition lower_string (s : string) : string :=
  String.string_of_list_ascii (map lower (String.list_ascii_of_string s)).

Definition is_alnum (c : Ascii.ascii) : bool :=
  let n := Ascii.nat_of_ascii c in
  ((48 <=? n)%nat && (n <=? 57)%nat) || ((65 <=? n)%nat && (n <=? 90)%nat)
  || ((97 <=? n)%nat && (n <=? 122)%nat).

(** [slugify]: lower-case, every run of other characters becomes one
    [-], no leading or trailing [-]. [started]: an alphanumeric was
    emitted; [gap]: a run of other characters followed it. *)
Fixpoint slug_go (s : string) (started gap : bool) : string :=
  match s with
  | EmptyString => EmptyString
  | String c r =>
      if is_alnum c then
        if started && gap then String "-"%char (String (lower c) (slug_go r true false))
        else String (lower c) (slug_go r true false)
      else slug_go r started true
  end.

Definition slugify (s : string) : string := slug_go s false false.

(** Dependency reachability over componentOf/constituentOf edges:
    [depends_on rels f x y] holds when [x] transitively depends on [y]. *)
Fixpoint depends_on (rels : list Relation) (fuel : nat) (x y : string) : bool :=
  match fuel with
  | O => false
  | S f => existsb (fun '(d, _) => String.eqb d y || depends_on rels f d y)
                   (Assurance.deps_of rels x)
  end.

(** The edge [src -> tgt] makes [tgt] depend on [src]: it closes a
    cycle when [src] already depends on [tgt]. *)
Definition creates_cycle (rels : list Relation) (src tgt : string) : bool :=
  String.eqb src tgt || depends_on rels (S (length rels)) src tgt.

Definition valid_cl (cl : Z) : bool := (1 <=? cl)%Z && (cl <=? 3)%Z.

Definition dependency_type (kind : string) : string :=
  if String.eqb kind "episteme" then "constituentOf" else "componentOf".

(** Modelled from the spec: [LinkHolons]. A congruence level of 0 (the
    zero value) falls back to 3, as [TestLinkHolons_CLValidation] requires;
    any other level outside 1..3 is an [invalid_argument] error (spec:
    "invalid CL"); missing holons and cycles are errors. *)
Definition LinkHolons (src tgt : string) (cl : Z) (st : State) : State * Result :=
  let cl := if Z.eqb cl 0 then 3%Z else cl in
  if negb (valid_cl cl) then
    (st, Err "invalid_argument: congruence_level must be 1, 2 or 3")
  else
  let d := db st in
  match find_holon (holons d) src with
  | None => (st, Err ("source holon " ++ src ++ " not found"))
  | Some hs =>
      if negb (holon_exists d tgt) then (st, Err ("target holon " ++ tgt ++ " not found"))
      else if creates_cycle (relations d) src tgt then
        (st, Err ("link " ++ src ++ " -> " ++ tgt ++ " would create a cycle"))
      else
        let ty := dependency_type (h_kind hs) in
        (upd (add_relation (mkRelation src tgt ty cl)) st,
         Ok ("Linked " ++ src ++ " --" ++ ty ++ "--> " ++ tgt ++
             ". WLNK now applies: R_eff(" ++ tgt ++ ") <= R_eff(" ++ src ++ ")"))
  end.

(** The id of a new hypothesis: its slug, or a fresh id on a collision
    (the code draws a UUID; here one derived from the holon count). *)
Definition new_holon_id (d : DB) (title : string) : string :=
  let s := slugify title in
  if holon_exists d s then "hypo-" ++ pretty (length (holons d)) else s.

(** One [depends_on] entry: skipped with a warning line when missing or
    cycle-creating, else the edge dep -> new holon. *)
Definition add_dependency (id ty : string) (cl : Z) (acc : State * string) (dep : string)
    : State * string :=
  let '(st, out) := acc in
  let d := db st in
  if negb (holon_exists d dep) then (st, out ++ " Warning: dependency " ++ dep ++ " not found, skipped.")
  else if creates_cycle (relations d) dep id then
    (st, out ++ " Warning: dependency " ++ dep ++ " would create a cycle, skipped.")
  else (upd (add_relation (mkRelation dep id ty cl)) st, out).

(** Modelled from the spec: [ProposeHypothesis] validates [kind] and
    [dependency_cl] before writing anything, then creates the L0 holon, its
    dependency edges and its memberOf edge (the search advisory of the
    output is left out). *)
Definition ProposeHypothesis (title content scope kind rationale decision_context : string)
    (deps : list string) (cl : Z) (st : State) : State * Result :=
  if negb (String.eqb kind "system" || String.eqb kind "episteme") then
    (st, Err "invalid_argument: kind must be system or episteme")
  else if negb (valid_cl cl) then
    (st, Err "invalid_argument: dependency_cl must be 1, 2 or 3")
  else
    let id := new_holon_id (db st) title in
    let st1 := upd (add_holon (mkHolon id "hypothesis" kind "L0" title content "default" scope)) st in
    let ty := dependency_type kind in
    let '(st2, warnings) := fold_left (add_dependency id ty cl) deps (st1, "") in
    let st3 := if negb (String.eqb decision_context "") && holon_exists (db st2) decision_context
               then upd (add_relation (mkRelation id decision_context "memberOf" 3)) st2
               else st2 in
    (st3, Ok ("Hypothesis " ++ id ++ " proposed at L0." ++ warnings)).

(** Modelled from the spec: [VerifyHypothesis] appends a [logic_check] evidence row; PASS
    promotes to L1 and clears the holon's stale marks, FAIL and REFINE
    move it to [invalid]. *)
Definition VerifyHypothesis (hid checks verdict carrier : string) (st : State)
    : State * Result :=
  let d := db st in
  let ev := mkEvidence (fresh_evidence_id d) hid "logic_check" (lower_string verdict) None
                       false "" checks "L1" carrier in
  if negb (holon_exists d hid) then (st, Err ("hypothesis " ++ hid ++ " not found"))
  else if String.eqb verdict "PASS" then
    (upd (fun d => set_layer hid "L1" (clear_stale hid (add_evidence ev d))) st,
     Ok ("Hypothesis " ++ hid ++ " promoted to L1"))
  else if String.eqb verdict "FAIL" || String.eqb verdict "REFINE" then
    (upd (fun d => set_layer hid "invalid" (add_evidence ev d)) st,
     Ok ("Hypothesis " ++ hid ++ " moved to invalid"))
  else (st, Err ("invalid_argument: unknown verdict " ++ verdict)).

(** Modelled from the spec: [ResetCycle] writes one [cycle_reset] audit entry, phase IDLE. *)
Definition ResetCycle (reason : string) (st : State) : State * Result :=
  let reason := if String.eqb reason "" then "user requested reset" else reason in
  let prev := fsm_phase st in
  let st1 := audit_append "quint_reset" "cycle_reset" "user" "" "SUCCESS"
                          (<["reason" := reason]> (∅ : gmap string string)) reason st in
  (save_state (set_fsm_phase PhaseIdle st1),
   Ok ("Cycle reset to IDLE. Previous phase: " ++ phase_name prev ++ ". Reason: " ++ reason)).

(** Modelled from the spec: [CalculateR] runs the calculator on the store; read-only. *)
Definition CalculateR (hid : string) (st : State) : State * Result :=
  match Assurance.CalculateReliability (calc_view (db st)) (clock st) hid with
  | Some r => (st, Ok ("R_eff report for " ++ hid ++ ", weakest link " ++
                       Assurance.r_weakest_link r))
  | None => (st, Err "calculation failed")
  end.

(** Modelled from the spec: [CheckPreconditions] (§4.3 "Preconditions"). *)
Definition CheckPreconditions (name : string) (args : gmap string string) (st : State)
    : option string :=
  let hs := holons (db st) in
  let get k := match args !! k with Some v => v | None => "" end in
  if String.eqb name "quint_verify" then
    if existsb (fun h => String.eqb (h_layer h) "L0") hs then None
    else Some "no L0 hypotheses to verify"
  else if String.eqb name "quint_test" then
    if existsb (fun h => String.eqb (h_layer h) "L1") hs then None
    else Some "no L1 hypotheses to test"
  else if String.eqb name "quint_decide" then
    match find_holon hs (get "winner_id") with
    | Some h => if String.eqb (h_layer h) "L1" || String.eqb (h_layer h) "L2" then None
                else Some "winner must be an L1 or L2 holon"
    | None => Some "winner must be an L1 or L2 holon"
    end
  else if String.eqb name "quint_resolve" || String.eqb name "quint_implement" then
    match find_holon hs (get "decision_id") with
    | Some h => if String.eqb (h_type h) "DRR" then None else Some "target must be a DRR"
    | None => Some "target must be a DRR"
    end
  else None.

(** Holons of type or layer DRR (the query of [TestResetCycle_NoDRRCreated]). *)
Definition drr_count (hs : list Holon) : nat :=
  length (List.filter (fun h => String.eqb (h_type h) "DRR" || String.eqb (h_layer h) "DRR") hs).

(** The tools whose bodies no claim depends on are left as parameters. *)
Section SpecTools.
Variable internalize : State -> State * Result.
Variable search : string -> string -> string -> string -> string -> Z -> State -> State * Result.
Variable resolve : ResolveInput -> State -> State * Result.
Variable implement : string -> State -> State * Result.
Variable manage_evidence : Phase -> string -> string -> string -> string -> string -> string ->
                           string -> Z -> State -> State * Result.
Variable audit_evidence : string -> string -> State -> State * Result.
Variable finalize_decision : string -> string -> list string -> string -> string -> string ->
                             string -> string -> string -> State -> State * Result.
Variable visualize_audit : string -> State -> State * Result.

Definition spec_tools : Tools :=
  mkTools CheckPreconditions internalize search resolve implement LinkHolons
          ProposeHypothesis VerifyHypothesis manage_evidence audit_evidence
          finalize_decision visualize_audit CalculateR ResetCycle.

End SpecTools.

End ToolModel.

(* ================================================================== *)
(** ** Concrete stores of the calculator tests *)

Module Scenarios.
Import Assurance.

(** Timestamps are day numbers. *)
Definition now : Z := 1000.
Definition tomorrow : Z := 1001.

Definition pass_ev (id h : string) : Evidence :=
  mkEvidence id h "internal" "pass" (Some tomorrow) false "" "" "" "".

(** [TestCalculateReliability_CLPenalty]: A and B pass, B componentOf A at CL1. *)
Definition cl1_db : CalcDB :=
  mkCalcDB [pass_ev "e1" "A"; pass_ev "e2" "B"] [mkRelation "B" "A" "componentOf" 1] [].

(** [TestCalculateReliability_CycleDetection]: A, B, C pass; A->B->C->A at CL3. *)
Definition cycle_db : CalcDB :=
  mkCalcDB [pass_ev "e1" "A"; pass_ev "e2" "B"; pass_ev "e3" "C"]
           [mkRelation "B" "A" "componentOf" 3; mkRelation "C" "B" "componentOf" 3;
            mkRelation "A" "C" "componentOf" 3] [].

(** [TestWLNK_MemberOf_NoPropagation]: good-member memberOf bad-decision;
    bad-decision has failing evidence in the first store, none in the second. *)
Definition member_db1 : CalcDB :=
  mkCalcDB [pass_ev "e1" "good-member";
            mkEvidence "e2" "bad-decision" "internal" "fail" (Some tomorrow) false "" "" "" ""]
           [mkRelation "good-member" "bad-decision" "memberOf" 3] [].

Definition member_db2 : CalcDB :=
  mkCalcDB [pass_ev "e1" "good-member"]
           [mkRelation "good-member" "bad-decision" "memberOf" 3] [].

(** Server states for the dispatcher. *)
Definition hyp (id kind layer : string) : Holon :=
  mkHolon id "hypothesis" kind layer id "content" "default" "".

(** Two system hypotheses A and B at L0; A carries one stale passing item. *)
Definition st_ab : State :=
  mkState PhaseIdle
    (mkDB [hyp "A" "system" "L0"; hyp "B" "system" "L0"]
          [mkEvidence "e1" "A" "test_result" "pass" (Some tomorrow) true "carrier file changed"
                      "" "L1" "src/main.go"]
          [] [] [] PhaseIdle)
    now.

Definition args_of (l : list (string * JSON)) : gmap string JSON := list_to_map l.

(** [ToolModel.spec_tools] with the bodies no claim uses answering with
    an error and leaving the state unchanged. *)
Definition tools_closed : Tools :=
  ToolModel.spec_tools
    (fun st => (st, Err "not modelled"))
    (fun _ _ _ _ _ _ st => (st, Err "not modelled"))
    (fun _ st => (st, Err "not modelled"))
    (fun _ st => (st, Err "not modelled"))
    (fun _ _ _ _ _ _ _ _ _ st => (st, Err "not modelled"))
    (fun _ _ st => (st, Err "not modelled"))
    (fun _ _ _ _ _ _ _ _ _ st => (st, Err "not modelled"))
    (fun _ st => (st, Err "not modelled")).

End Scenarios.

(* ================================================================== *)
(** ** The tool list and the request loop: [handleToolsList], [Server.Start] *)

(** An entry of the [tools/list] answer. [ts_properties] pairs each
    property of [InputSchema] with its JSON type; the descriptions, enums,
    bounds and defaults of the schema are documentation for the client and
    are left out. *)
Record ToolSpec := mkToolSpec {
  ts_name : string;
  ts_properties : list (string * string);
  ts_required : list string
}.

Definition str_props (l : list string) : list (string * string) :=
  map (fun p => (p, "string")) l.

(** The table of [handleToolsList], in its order. *)
Definition tools_list : list ToolSpec :=
  [ mkToolSpec "quint_internalize" [] [];
    mkToolSpec "quint_search"
      (str_props ["query"; "scope"; "layer_filter"; "status_filter"; "affected_scope_filter"]
       ++ [("limit", "integer")]) ["query"];
    mkToolSpec "quint_resolve"
      (str_props ["decision_id"; "resolution"; "reference"; "superseded_by"; "notes"; "valid_until"]
       ++ [("criteria_verified", "boolean")]) ["decision_id"; "resolution"];
    mkToolSpec "quint_implement" (str_props ["decision_id"]) ["decision_id"];
    mkToolSpec "quint_link"
      (str_props ["source_id"; "target_id"] ++ [("congruence_level", "integer")])
      ["source_id"; "target_id"];
    mkToolSpec "quint_propose"
      (str_props ["title"; "content"; "scope"; "kind"; "rationale"; "decision_context"]
       ++ [("depends_on", "array"); ("dependency_cl", "integer")])
      ["title"; "content"; "scope"; "kind"; "rationale"];
    mkToolSpec "quint_verify" (str_props ["hypothesis_id"; "checks_json"; "verdict"; "carrier_files"])
      ["hypothesis_id"; "checks_json"; "verdict"];
    mkToolSpec "quint_test"
      (str_props ["hypothesis_id"; "test_type"; "result"; "verdict"; "carrier_files"])
      ["hypothesis_id"; "test_type"; "result"; "verdict"];
    mkToolSpec "quint_audit" (str_props ["hypothesis_id"; "risks"]) ["hypothesis_id"; "risks"];
    mkToolSpec "quint_decide"
      (str_props ["title"; "winner_id"] ++ [("rejected_ids", "array")] ++
       str_props ["context"; "decision"; "rationale"; "consequences"; "characteristics"; "contract"])
      ["title"; "winner_id"; "context"; "decision"; "rationale"; "consequences"];
    mkToolSpec "quint_audit_tree" (str_props ["holon_id"]) ["holon_id"];
    mkToolSpec "quint_calculate_r" (str_props ["holon_id"]) ["holon_id"];
    mkToolSpec "quint_reset" (str_props ["reason"]) [] ].

(** One input line of [Start], as [json.Unmarshal] into [JSONRPCRequest]
    leaves it: empty, not decodable, or a request. [req_id] is [JNull] for
    a missing or null id (Go's [nil]); [req_params] is the outcome of
    decoding the params into [{name, arguments}] ([None] on failure). *)
Inductive Line :=
| LEmpty
| LMalformed
| LRequest (req_method : string) (req_id : JSON) (req_params : option (string * gmap string JSON)).

Inductive Payload :=
| PInitialize
| PToolsList (tools : list ToolSpec)
| PCall (text : string) (is_error : bool).

(** One line written by [send]: [sendResult] or [sendError]. *)
Inductive Out :=
| OutResult (id : JSON) (result : Payload)
| OutError (id : JSON) (code : Z) (message : string).

(** One iteration of the loop of [Start]. *)
Definition serve_line (T : Tools) (st : State) (l : Line) : State * list Out :=
  match l with
  | LEmpty => (st, [])
  | LMalformed => (st, [OutError JNull (-32700) "Parse error"])
  | LRequest m id p =>
      if String.eqb m "initialize" then (st, [OutResult id PInitialize])
      else if String.eqb m "tools/list" then (st, [OutResult id (PToolsList tools_list)])
      else if String.eqb m "tools/call" then
        let '(st', r) := handleToolsCall T p st in
        (st', [match r with
               | RpcError c msg => OutError id c msg
               | ToolResult t b => OutResult id (PCall t b)
               end])
      else if String.eqb m "notifications/initialized" then (st, [])
      else match id with
           | JNull => (st, [])
           | _ => (st, [OutError id (-32601) "Method not found"])
           end
  end.

(** What one call of [scanner.Scan] gives: a line, or a failure that
    ends the loop. [Start] sets no buffer on its [bufio.Scanner], so a
    line longer than [bufio.MaxScanTokenSize] (64 KiB) makes [Scan] fail
    with [ErrTooLong]; a read error on stdin fails it too. The end of the
    input is the end of the list. *)
Inductive Input :=
| InLine (l : Line)
| ScanFail.

(** [Start]: the lines in order, the state threaded through, the written
    lines collected; the loop ends at the first failed [Scan]. *)
Fixpoint Start (T : Tools) (st : State) (ins : list Input) : State * list Out :=
  match ins with
  | [] => (st, [])
  | ScanFail :: _ => (st, [])
  | InLine l :: rest =>
      let '(st1, o1) := serve_line T st l in
      let '(st2, o2) := Start T st1 rest in
      (st2, app o1 o2)
  end.

(** The lines [Scan] returns before it fails or the input ends: the lines
    the loop body runs on. *)
Fixpoint scanned (ins : list Input) : list Line :=
  match ins with
  | [] => []
  | ScanFail :: _ => []
  | InLine l :: rest => l :: scanned rest
  end.

(** The params of the [tools/call] requests among [ls], in order. *)
Definition tool_calls (ls : list Line) : list (option (string * gmap string JSON)) :=
  flat_map (fun l => match l with
                     | LRequest m _ p => if String.eqb m "tools/call" then [p] else []
                     | _ => []
                     end) ls.

(* ================================================================== *)
(** ** Schema migrations: [RunMigrations] and [isDuplicateColumnError] *)

Module Migrations.

(** [strings.Contains s sub]. *)
Fixpoint str_contains (s sub : string) : bool :=
  String.prefix sub s || match s with EmptyString => false | String _ r => str_contains r sub end.

(** [isDuplicateColumnError]: [None] is a nil error. *)
Definition isDuplicateColumnError (err : option string) : bool :=
  match err with None => false | Some msg => str_contains msg "duplicate column" end.

Record Migration := mkMigration {
  m_version : Z;
  m_description : string;
  m_sql : string
}.

Section Run.
(** The tables other than [schema_version], and [conn.Exec] of a
    migration's SQL on them: the new tables and the error, if any. *)
Variable Tables : Type.
Variable exec : string -> Tables -> Tables * option string.

(** A connection: the rows of [schema_version] (in insertion order) and
    the other tables. [CREATE TABLE IF NOT EXISTS schema_version] leaves an
    existing table as it is and an absent one holds no version, so on
    working storage it is the identity here. *)
Record Conn := mkConn {
  schema_version : list Z;
  tables : Tables
}.

Definition version_recorded (v : Z) (c : Conn) : bool :=
  existsb (Z.eqb v) (schema_version c).

(** The loop over [migrations], from a connection, when the statements
    on [schema_version] itself (its creation, the existence query, the
    insert of a version) succeed: only a migration's own SQL can fail.
    [RunMigrations_full] below keeps their failures too. *)
Fixpoint run_migrations (ms : list Migration) (c : Conn) : Conn * option string :=
  match ms with
  | [] => (c, None)
  | m :: rest =>
      if version_recorded (m_version m) c then run_migrations rest c
      else
        let '(t', execErr) := exec (m_sql m) (tables c) in
        match execErr with
        | Some e =>
            if negb (isDuplicateColumnError execErr) then
              (mkConn (schema_version c) t',
               Some ("migration " ++ pretty (m_version m) ++ " (" ++ m_description m ++
                     ") failed: " ++ e))
            else run_migrations rest (mkConn (schema_version c ++ [m_version m]) t')
        | None => run_migrations rest (mkConn (schema_version c ++ [m_version m]) t')
        end
  end.

(** [RunMigrations(conn)] for the package's list [ms]. *)
Definition RunMigrations (ms : list Migration) (c : Conn) : Conn * option string :=
  run_migrations ms c.

(** The errors the storage gives for the statements on [schema_version]:
    [CREATE TABLE IF NOT EXISTS schema_version], the existence query
    [SELECT 1 FROM schema_version WHERE version = ?] for a version (an
    error other than [sql.ErrNoRows], which only means "not recorded"),
    and [INSERT INTO schema_version (version) VALUES (?)] (for instance a
    version already present, which violates the primary key). [None] is a
    nil error. *)
Variable create_err : Conn -> option string.
Variable query_err : Z -> Conn -> option string.
Variable insert_err : Z -> Conn -> option string.

(** The loop of [RunMigrations] with every error return. A migration is
    skipped only when the query succeeds and finds its version; when the
    query fails the migration runs. A migration whose SQL fails with an
    error other than a duplicate column stops the loop; otherwise its
    version is inserted, and a failed insert stops the loop. *)
Fixpoint run_full (ms : list Migration) (c : Conn) : Conn * option string :=
  match ms with
  | [] => (c, None)
  | m :: rest =>
      let v := m_version m in
      if match query_err v c with None => version_recorded v c | Some _ => false end
      then run_full rest c
      else
        let '(t', execErr) := exec (m_sql m) (tables c) in
        let c1 := mkConn (schema_version c) t' in
        let record :=
          match insert_err v c1 with
          | Some e => (c1, Some ("failed to record migration " ++ pretty v ++ ": " ++ e))
          | None => run_full rest (mkConn (app (schema_version c) [v]) t')
          end in
        match execErr with
        | Some e =>
            if negb (isDuplicateColumnError execErr) then
              (c1, Some ("migration " ++ pretty v ++ " (" ++ m_description m ++ ") failed: " ++ e))
            else record
        | None => record
        end
  end.

(** [RunMigrations(conn)] with every error return: a failed creation of
    [schema_version] returns before any migration. *)
Definition RunMigrations_full (ms : list Migration) (c : Conn) : Conn * option string :=
  match create_err c with
  | Some e => (c, Some ("failed to create schema_version table: " ++ e))
  | None => run_full ms c
  end.

End Run.

End Migrations.

(* ================================================================== *)
(** ** Inputs for the instances of the request-loop and migration facts *)

Module ExtraScenarios.
Import Scenarios Migrations.

Definition out_id (o : Out) : JSON :=
  match o with OutResult id _ => id | OutError id _ _ => id end.

(** A store whose holon A is at L1, so a decide naming it as winner
    passes the precondition check. *)
Definition st_l1 : State :=
  mkState PhaseDecision
    (mkDB [hyp "A" "system" "L1"] [] [] [] [] PhaseAudit) now.

(** [tools_closed] whose FinalizeDecision succeeds. *)
Definition tools_decide_ok : Tools :=
  ToolModel.spec_tools
    (fun st => (st, Err "not modelled"))
    (fun _ _ _ _ _ _ st => (st, Err "not modelled"))
    (fun _ st => (st, Err "not modelled"))
    (fun _ st => (st, Err "not modelled"))
    (fun _ _ _ _ _ _ _ _ _ st => (st, Err "not modelled"))
    (fun _ _ st => (st, Err "not modelled"))
    (fun _ _ _ _ _ _ _ _ _ st => (st, Ok "decision recorded"))
    (fun _ st => (st, Err "not modelled")).

(** A table store that logs the statements it runs: "BAD" fails with a
    syntax error, "DUP" with a duplicate column error. *)
Definition exec_log (sql : string) (t : list string) : list string * option string :=
  if String.eqb sql "BAD" then (t, Some "near BAD: syntax error")
  else if String.eqb sql "DUP" then (t, Some "duplicate column name: parent_id")
  else (app t [sql], None).

Definition ms_ok : list Migration :=
  [mkMigration 1 "Add parent_id" "DUP"; mkMigration 2 "Add cached_r_score" "ALTER 2";
   mkMigration 3 "Add fpf_state" "CREATE 3"].

Definition ms_bad : list Migration :=
  [mkMigration 1 "Add parent_id" "ALTER 1"; mkMigration 2 "Broken" "BAD";
   mkMigration 3 "Add fpf_state" "CREATE 3"].

End ExtraScenarios.

(* ================================================================== *)
(** * Theorems *)

Module AssuranceFacts.
Import Assurance.

Lemma qmin_Qmin (a b : Q) : (qmin a b == Qmin a b)%Q.
Proof.
  unfold qmin. destruct (Qle_bool a b) eqn:E.
  - apply Qle_bool_iff in E. symmetry. apply Q.min_l. exact E.
  - assert (b <= a)%Q. { apply Qlt_le_weak. apply Qnot_le_lt. intro H.
      apply Qle_bool_iff in H. congruence. }
    symmetry. apply Q.min_r. exact H.
Qed.


Lemma item_score_fresh_pass db now e :
  fresh_internal_pass now e = true -> item_score db now e = (1 # 1, []).
Proof.
  unfold fresh_internal_pass, item_score, verdict_score.
  intro H. repeat rewrite andb_true_iff in H. destruct H as [[[Hv Ht] Hs] Hd].
  apply negb_true_iff in Ht, Hs, Hd.
  destruct (waived db now e); [reflexivity|].
  rewrite Hs, Hd, Hv, Ht. reflexivity.
Qed.

Lemma self_score_single_pass db now h e :
  holon_evidence db h = [e] -> fresh_internal_pass now e = true ->
  self_score db now h = (1 # 1, [], []).
Proof.
  intros He Hp. unfold self_score. rewrite He. simpl.
  rewrite (item_score_fresh_pass db now e Hp). simpl.
  unfold fresh_internal_pass in Hp. repeat rewrite andb_true_iff in Hp.
  destruct Hp as [[[_ _] Hs] _]. apply negb_true_iff in Hs. rewrite Hs.
  rewrite andb_false_r. reflexivity.
Qed.

Lemma mem_single_neq (a b : string) : a <> b -> mem b [a] = false.
Proof.
  intro H. unfold mem. simpl. rewrite orb_false_r.
  apply String.eqb_neq. congruence.
Qed.

(** C1 (as the code fixes it). Holon [a] has exactly one dependency [b]
    at level [cl]; both carry one fresh passing internal evidence item and
    [b] has no dependencies. The final R_eff of [a] is the CL factor:
    1.0 at CL3, 0.9 at CL2 and 0.6 at CL1. *)
Theorem single_dependency_cl_penalty (db : CalcDB) (now : Z) (a b : string)
    (ea eb : Evidence) (cl : Z) :
  a <> b ->
  deps_of (db_relations db) a = [(b, cl)] ->
  deps_of (db_relations db) b = [] ->
  holon_evidence db a = [ea] -> holon_evidence db b = [eb] ->
  fresh_internal_pass now ea = true -> fresh_internal_pass now eb = true ->
  (cl = 3%Z -> final_score db now a = Some (1 # 1)) /\
  (cl = 2%Z -> final_score db now a = Some (9 # 10)) /\
  (cl = 1%Z -> final_score db now a = Some (6 # 10)).
Proof.
  intros Hab Hda Hdb Hea Heb Hpa Hpb.
  assert (Hfin : final_score db now a = Some (clamp01 (qmin (1 # 1)
                   (clamp01 (Qmult (1 # 1) (cl_factor cl)))))).
  { unfold final_score, CalculateReliability, calc_nodes. cbn [length].
    cbn [calc]. rewrite Hda. cbn [mapM].
    rewrite (mem_single_neq a b Hab). cbn [calc]. rewrite Hdb. cbn [mapM].
    cbn [option_map].
    rewrite (self_score_single_pass db now a ea Hea Hpa).
    rewrite (self_score_single_pass db now b eb Heb Hpb).
    reflexivity. }
  rewrite Hfin. repeat split; intro Hcl; subst cl; reflexivity.
Qed.

Lemma fold_Qmin_le_1 (l : list Q) : (fold_right Qmin (1 # 1) l <= 1 # 1)%Q.
Proof.
  induction l as [|x l IH]; simpl.
  - apply Qle_refl.
  - eapply Qle_trans; [apply Q.le_min_r | exact IH].
Qed.

Lemma self_fold_nonwaived db now (evs : list Evidence) :
  (fold_right (fun e acc => qmin (fst (item_score db now e)) acc) (1 # 1) evs ==
   fold_right Qmin (1 # 1)
     (map (fun e => fst (item_score db now e))
          (List.filter (fun e => negb (waived db now e)) evs)))%Q.
Proof.
  induction evs as [|e evs IH]; simpl.
  - apply Qeq_refl.
  - rewrite qmin_Qmin. destruct (waived db now e) eqn:W; simpl.
    + unfold item_score. rewrite W. simpl.
      rewrite IH. apply Q.min_r. apply fold_Qmin_le_1.
    + rewrite IH. apply Qeq_refl.
Qed.

(** C2. Self score: a holon without evidence scores 0.0 with the factor
    "No evidence"; otherwise the self score is the minimum of the per-item
    scores of its non-waived evidence, an item scoring 0.2 when stale, else
    0.1 when decayed (valid_until < now), else 0.0 on fail, 0.5 on degrade,
    1.0 on pass, 0.9 on pass of type external with its factor. *)
Theorem self_score_wlnk (db : CalcDB) (now : Z) (h : string) :
  (holon_evidence db h = [] -> self_score db now h = (0 # 1, ["No evidence"], [])) /\
  (holon_evidence db h <> [] ->
     (fst (fst (self_score db now h)) ==
      fold_right Qmin (1 # 1)
        (map (fun e => fst (item_score db now e))
             (List.filter (fun e => negb (waived db now e)) (holon_evidence db h))))%Q) /\
  (forall e, waived db now e = false ->
     (ev_is_stale e = true ->
        item_score db now e = (2 # 10, ["Evidence stale: " ++ ev_stale_reason e])) /\
     (ev_is_stale e = false -> decayed now e = true ->
        fst (item_score db now e) = 1 # 10) /\
     (ev_is_stale e = false -> decayed now e = false -> ev_verdict e = "fail" ->
        fst (item_score db now e) = 0 # 1) /\
     (ev_is_stale e = false -> decayed now e = false -> ev_verdict e = "degrade" ->
        fst (item_score db now e) = 1 # 2) /\
     (ev_is_stale e = false -> decayed now e = false -> ev_verdict e = "pass" ->
        ev_type e = "external" ->
        item_score db now e = (9 # 10, ["External evidence CL2 penalty applied"])) /\
     (ev_is_stale e = false -> decayed now e = false -> ev_verdict e = "pass" ->
        ev_type e <> "external" -> fst (item_score db now e) = 1 # 1)).
Proof.
  split; [|split].
  - intro H. unfold self_score. rewrite H. reflexivity.
  - intro H. unfold self_score. destruct (holon_evidence db h) as [|e0 evs] eqn:E.
    + contradiction.
    + rewrite <- E. simpl fst. rewrite E. apply self_fold_nonwaived.
  - intros e W. unfold item_score, verdict_score. rewrite W.
    repeat split; intros Hs; rewrite Hs; try reflexivity; intros Hd; rewrite Hd;
      try reflexivity; intros Hv; rewrite Hv; try reflexivity.
    + intros Ht. rewrite Ht. reflexivity.
    + intros Ht. apply String.eqb_neq in Ht. rewrite Ht. reflexivity.
Qed.


Lemma mem_cons (x h : string) (v : list string) :
  mem x (h :: v) = String.eqb x h || mem x v.
Proof. reflexivity. Qed.

Lemma unvisited_cons_le (N v : list string) (h : string) :
  unvisited N (h :: v) <= unvisited N v.
Proof.
  unfold unvisited. induction N as [|x N IH]; cbn [List.filter length]; [lia|].
  rewrite mem_cons. destruct (String.eqb x h), (mem x v); cbn [negb orb length]; lia.
Qed.

Lemma unvisited_cons_lt (N v : list string) (h : string) :
  In h N -> mem h v = false -> unvisited N (h :: v) < unvisited N v.
Proof.
  unfold unvisited. induction N as [|x N IH]; cbn [List.filter length In]; [contradiction|].
  intros Hin Hm. rewrite mem_cons.
  destruct (String.eqb x h) eqn:E.
  - apply String.eqb_eq in E. subst x. rewrite Hm. cbn [negb orb length].
    pose proof (unvisited_cons_le N v h) as Hle. unfold unvisited in Hle. lia.
  - destruct Hin as [Hx|Hin]; [subst; rewrite String.eqb_refl in E; discriminate|].
    specialize (IH Hin Hm). destruct (mem x v); cbn [negb orb length]; lia.
Qed.

Lemma unvisited_nil (N : list string) : unvisited N [] = length N.
Proof.
  unfold unvisited, mem. induction N as [|x N IH]; simpl in *; congruence.
Qed.

Lemma mapM_some {A B} (g : A -> option B) (l : list A) :
  (forall x, In x l -> exists y, g x = Some y) -> exists ys, mapM g l = Some ys.
Proof.
  induction l as [|x l IH]; simpl; intros H.
  - eauto.
  - destruct (H x (or_introl eq_refl)) as [y Hy]. rewrite Hy.
    destruct IH as [ys Hys]; [intros; apply H; auto|]. rewrite Hys. eauto.
Qed.

Lemma deps_of_sources (rels : list Relation) (h d : string) (cl : Z) :
  In (d, cl) (deps_of rels h) -> In d (map rel_source_id rels).
Proof.
  unfold deps_of. intros Hin. apply in_map_iff in Hin as [r [Hr Hin]].
  apply filter_In in Hin as [Hin _]. inversion Hr; subst.
  apply in_map. exact Hin.
Qed.

Lemma calc_defined (db : CalcDB) (now : Z) (N : list string) :
  (forall r, In r (db_relations db) -> In (rel_source_id r) N) ->
  forall fuel visited h, In h N -> mem h visited = false -> unvisited N visited < fuel ->
  exists r, calc db now fuel visited h = Some r.
Proof.
  intros HN fuel. induction fuel as [|f IH]; intros visited h Hin Hm Hlt; [lia|].
  cbn [calc].
  match goal with |- context [mapM ?g ?l] => destruct (mapM_some g l) as [ys Hys] end.
  - intros [d cl] Hd. destruct (mem d (h :: visited)) eqn:Md; [eauto|].
    destruct (IH (h :: visited) d) as [r Hr].
    + apply deps_of_sources in Hd. apply in_map_iff in Hd as [r [<- Hr]]. auto.
    + exact Md.
    + pose proof (unvisited_cons_lt N visited h Hin Hm). lia.
    + rewrite Hr. simpl. eauto.
  - rewrite Hys. eauto.
Qed.

Lemma calculate_terminates (db : CalcDB) (now : Z) (h : string) :
  exists r, CalculateReliability db now h = Some r.
Proof.
  unfold CalculateReliability. apply (calc_defined db now (calc_nodes db h)).
  - intros r Hr. right. apply in_map. exact Hr.
  - left. reflexivity.
  - reflexivity.
  - rewrite unvisited_nil. lia.
Qed.

(** C5. The calculator returns a report on every store, cycles included;
    on the cycle A -> B -> C -> A of passing holons at CL3 the final R_eff
    of A is 1.0. *)
Theorem calculator_total_and_cycle_safe :
  (forall (db : CalcDB) (now : Z) (h : string),
     exists r, CalculateReliability db now h = Some r) /\
  final_score Scenarios.cycle_db Scenarios.now "A" = Some (1 # 1).
Proof.
  split.
  - exact calculate_terminates.
  - vm_compute. reflexivity.
Qed.


Lemma mapM_ext_in {A B} (g1 g2 : A -> option B) (l : list A) :
  (forall x, In x l -> g1 x = g2 x) -> mapM g1 l = mapM g2 l.
Proof.
  induction l as [|x l IH]; simpl; intros H; [reflexivity|].
  rewrite (H x (or_introl eq_refl)). rewrite IH; auto.
Qed.

Lemma item_score_waivers db1 db2 now e :
  db_waivers db1 = db_waivers db2 -> item_score db1 now e = item_score db2 now e.
Proof. intros Hw. unfold item_score, waived. rewrite Hw. reflexivity. Qed.

Lemma self_score_ext db1 db2 now h :
  db_waivers db1 = db_waivers db2 -> holon_evidence db1 h = holon_evidence db2 h ->
  self_score db1 now h = self_score db2 now h.
Proof.
  intros Hw He. unfold self_score. rewrite He.
  destruct db1 as [ev1 r1 w1], db2 as [ev2 r2 w2]. cbn in Hw. subst w2.
  unfold item_score, waived. cbn [db_waivers]. reflexivity.
Qed.

Lemma calc_independent (db1 db2 : CalcDB) (now : Z) (b : string) :
  db_relations db1 = db_relations db2 ->
  db_waivers db1 = db_waivers db2 ->
  (forall h, h <> b -> holon_evidence db1 h = holon_evidence db2 h) ->
  forall fuel visited h, ~ dep_reach (db_relations db1) h b ->
  calc db1 now fuel visited h = calc db2 now fuel visited h.
Proof.
  intros Hr Hw He fuel. induction fuel as [|f IH]; intros visited h Hn; [reflexivity|].
  cbn [calc]. rewrite <- Hr.
  rewrite (self_score_ext db1 db2 now h Hw).
  2:{ apply He. intro E. subst. apply Hn. constructor. }
  erewrite mapM_ext_in; [reflexivity|].
  intros [d cl] Hd. destruct (mem d (h :: visited)); [reflexivity|].
  rewrite IH; [reflexivity|].
  intro Hdb. apply Hn. eapply dep_reach_step; eassumption.
Qed.

(** C7. Two stores that differ only in the evidence of [b] (same
    relations, same waivers) give the same report, hence the same R_eff,
    for every holon [a] that does not reach [b] through componentOf or
    constituentOf edges. A memberOf edge from [a] to [b] is not such an
    edge: it does not connect them for the calculator. *)
Theorem reff_independent_of_non_dependency (db1 db2 : CalcDB) (now : Z) (a b : string) :
  db_relations db1 = db_relations db2 ->
  db_waivers db1 = db_waivers db2 ->
  (forall h, h <> b -> holon_evidence db1 h = holon_evidence db2 h) ->
  ~ dep_reach (db_relations db1) a b ->
  CalculateReliability db1 now a = CalculateReliability db2 now a.
Proof.
  intros Hr Hw He Hn. unfold CalculateReliability, calc_nodes.
  rewrite <- Hr. apply (calc_independent db1 db2 now b Hr Hw He). exact Hn.
Qed.

End AssuranceFacts.

Module DispatcherFacts.

Lemma run_state (T : Tools) (call : ToolCall) (st : State) :
  run T call st = (post call (snd (invoke T call (prep call st))) (fst (invoke T call (prep call st))),
                   snd (invoke T call (prep call st))).
Proof. unfold run. destruct (invoke T call (prep call st)); reflexivity. Qed.

Lemma post_audit (call : ToolCall) (r : Result) (st : State) :
  audit_log (db (post call r st)) = audit_log (db st).
Proof. destruct call, r; reflexivity. Qed.

Lemma prep_audit (call : ToolCall) (st : State) :
  audit_log (db (prep call st)) = audit_log (db st).
Proof. destruct call; reflexivity. Qed.

Lemma post_err (call : ToolCall) (e : string) (st : State) : post call (Err e) st = st.
Proof. destruct call; reflexivity. Qed.

(** C3 (as the dispatcher does it). [handleToolsCall] writes an audit
    entry only when the precondition check blocks the call: one
    [precondition_failed] entry with result BLOCKED. Otherwise every audit
    entry of the call is the tool body's own: the dispatcher adds none, on
    success or on error. A request whose params do not decode changes
    nothing. *)
Theorem dispatcher_audits_only_blocked_calls (T : Tools) :
  (forall st, handleToolsCall T None st = (st, RpcError (-32700) "Invalid params")) /\
  (forall name arguments st perr,
     CheckPreconditions T name (string_args arguments) st = Some perr ->
     handleToolsCall T (Some (name, arguments)) st =
       (audit_append name "precondition_failed" "agent" "" "BLOCKED"
                     (string_args arguments) perr st, ToolResult perr true)) /\
  (forall name arguments st,
     CheckPreconditions T name (string_args arguments) st = None ->
     let call := select name arguments in
     audit_log (db (fst (handleToolsCall T (Some (name, arguments)) st))) =
       audit_log (db (fst (invoke T call (prep call st)))) /\
     audit_log (db (prep call st)) = audit_log (db st)).
Proof.
  split; [reflexivity|]. split.
  - intros name arguments st perr H. simpl. rewrite H. reflexivity.
  - intros name arguments st H call. split; [|apply prep_audit].
    simpl. rewrite H. fold call. rewrite run_state. simpl. apply post_audit.
Qed.

(** C4 (as the dispatcher does it). There is no transaction around a tool
    call: when the body fails, the state the call leaves is the one the
    body left, starting from the phase updates made before it, which stay
    persisted. propose, verify and test save ABDUCTION, DEDUCTION and
    INDUCTION before their body runs. *)
Theorem failed_call_keeps_prior_writes (T : Tools) :
  (forall name arguments st st' msg,
     CheckPreconditions T name (string_args arguments) st = None ->
     handleToolsCall T (Some (name, arguments)) st = (st', ToolResult msg true) ->
     invoke T (select name arguments) (prep (select name arguments) st) = (st', Err msg)) /\
  (forall st ti co sc k ra dc deps cl,
     fpf_phase (db (prep (TC_Propose ti co sc k ra dc deps cl) st)) = PhaseAbduction) /\
  (forall st h c v cf,
     fpf_phase (db (prep (TC_Verify h c v cf) st)) = PhaseDeduction) /\
  (forall st h ty r v al cf,
     fpf_phase (db (prep (TC_Test h ty r v al cf) st)) = PhaseInduction).
Proof.
  split; [|repeat split].
  intros name arguments st st' msg H Hh. simpl in Hh. rewrite H in Hh.
  rewrite run_state in Hh.
  destruct (invoke T (select name arguments) (prep (select name arguments) st)) as [s r].
  simpl in Hh. destruct r as [o|e]; inversion Hh; subst.
  rewrite post_err. reflexivity.
Qed.

Lemma arg_insert_non_string (arguments : gmap string JSON) (k : string) (v : JSON) :
  (forall s, v <> JStr s) ->
  forall k', arg (<[k:=v]> arguments) k' = arg (<[k:=JStr ""]> arguments) k'.
Proof.
  intros Hv k'. unfold arg. destruct (decide (k = k')) as [->|Hne].
  - rewrite !lookup_insert_eq. destruct v; try reflexivity. exfalso. eapply Hv. reflexivity.
  - rewrite !lookup_insert_ne by exact Hne. reflexivity.
Qed.

(** C10. A non-string JSON value under any key other than the six typed
    ones reaches the tool exactly as the empty string would; [arg] reads
    it as the empty string; and every decoded [tools/call] is answered
    with a tool result, never with a protocol error. *)
Theorem dispatch_coerces_non_strings :
  (forall name arguments k v,
     ~ In k ["limit"; "congruence_level"; "dependency_cl"; "criteria_verified";
             "depends_on"; "rejected_ids"] ->
     (forall s, v <> JStr s) ->
     select name (<[k:=v]> arguments) = select name (<[k:=JStr ""]> arguments)) /\
  (forall arguments k v, (forall s, v <> JStr s) -> arg (<[k:=v]> arguments) k = "") /\
  (forall T name arguments st,
     exists st' text b, handleToolsCall T (Some (name, arguments)) st = (st', ToolResult text b)).
Proof.
  split; [|split].
  - intros name arguments k v Hk Hv.
    assert (Hne : forall k', In k' ["limit"; "congruence_level"; "dependency_cl";
                                    "criteria_verified"; "depends_on"; "rejected_ids"] ->
                  forall w, <[k:=w]> arguments !! k' = arguments !! k').
    { intros k' Hk' w. apply lookup_insert_ne. intros ->. contradiction. }
    unfold select, num_arg, bool_arg, string_list_arg.
    rewrite !(arg_insert_non_string arguments k v Hv).
    rewrite !(Hne "limit"), !(Hne "congruence_level"), !(Hne "dependency_cl"),
            !(Hne "criteria_verified"), !(Hne "depends_on"), !(Hne "rejected_ids")
      by (simpl; tauto).
    reflexivity.
  - intros arguments k v Hv. unfold arg. rewrite lookup_insert_eq.
    destruct v; try reflexivity. exfalso. eapply Hv. reflexivity.
  - intros T name arguments st. simpl.
    destruct (CheckPreconditions T name (string_args arguments) st).
    + eexists _, _, _. reflexivity.
    + destruct (run T (select name arguments) st) as [s [o|e]]; eexists _, _, _; reflexivity.
Qed.

End DispatcherFacts.

Module ToolFacts.
Import ToolModel.

Lemma find_set_layer (hs : list Holon) (id l : string) :
  find_holon (map (fun h => if String.eqb (h_id h) id then with_layer l h else h) hs) id =
  option_map (with_layer l) (find_holon hs id).
Proof.
  unfold find_holon. induction hs as [|h hs IH]; [reflexivity|].
  simpl. destruct (String.eqb (h_id h) id) eqn:E; simpl.
  - rewrite E. reflexivity.
  - rewrite E. exact IH.
Qed.

Lemma layer_of_set_layer (st : State) (id l : string) :
  holon_exists (db st) id = true ->
  layer_of (upd (set_layer id l) st) id = Some l.
Proof.
  unfold holon_exists, layer_of, upd, set_db, set_layer. simpl.
  rewrite find_set_layer. destruct (find_holon (holons (db st)) id); [reflexivity|discriminate].
Qed.

Lemma layer_of_exists (st : State) (id l : string) :
  layer_of st id = Some l -> holon_exists (db st) id = true.
Proof.
  unfold layer_of, holon_exists. destruct (find_holon (holons (db st)) id); [reflexivity|discriminate].
Qed.

Lemma clear_stale_spec (evs : list Evidence) (id : string) (e : Evidence) :
  In e (map (fun e => if String.eqb (ev_holon_id e) id then not_stale e else e) evs) ->
  ev_holon_id e = id -> ev_is_stale e = false.
Proof.
  intros Hin Hid. apply in_map_iff in Hin. destruct Hin as [x [Hx _]].
  destruct (String.eqb (ev_holon_id x) id) eqn:E.
  - subst e. reflexivity.
  - subst e. apply String.eqb_neq in E. contradiction.
Qed.

(** C6. For a holon at layer L0: verify with PASS succeeds, moves it to L1
    and leaves no stale evidence on it; verify with FAIL or REFINE
    succeeds and moves it to [invalid]; verify with FAIL keeps every
    existing evidence row, stale marks included. *)
Theorem verify_layer_and_staleness (st : State) (hid checks carrier : string) :
  layer_of st hid = Some "L0" ->
  (let r := VerifyHypothesis hid checks "PASS" carrier st in
   (exists o, snd r = Ok o) /\ layer_of (fst r) hid = Some "L1" /\
   (forall e, In e (evidence (db (fst r))) -> ev_holon_id e = hid -> ev_is_stale e = false)) /\
  (forall v, v = "FAIL" \/ v = "REFINE" ->
   let r := VerifyHypothesis hid checks v carrier st in
   (exists o, snd r = Ok o) /\ layer_of (fst r) hid = Some "invalid") /\
  (forall e, In e (evidence (db st)) ->
   In e (evidence (db (fst (VerifyHypothesis hid checks "FAIL" carrier st))))).
Proof.
  intros Hl. pose proof (layer_of_exists st hid "L0" Hl) as Hex.
  split; [|split].
  - cbv zeta. unfold VerifyHypothesis. rewrite Hex. simpl negb. cbn iota.
    rewrite String.eqb_refl. split; [eexists; reflexivity|]. split.
    + change (layer_of (upd (set_layer hid "L1")
                 (upd (fun d => clear_stale hid (add_evidence
                   (mkEvidence (fresh_evidence_id (db st)) hid "logic_check"
                      (lower_string "PASS") None false "" checks "L1" carrier) d)) st)) hid
              = Some "L1").
      apply layer_of_set_layer. unfold holon_exists in *. simpl. exact Hex.
    + intros e Hin Hid. simpl in Hin. eapply clear_stale_spec; eassumption.
  - intros v Hv. cbv zeta. unfold VerifyHypothesis. rewrite Hex. simpl negb. cbn iota.
    assert (Hp : String.eqb v "PASS" = false) by (destruct Hv; subst; reflexivity).
    assert (Hf : (String.eqb v "FAIL" || String.eqb v "REFINE")%bool = true)
      by (destruct Hv; subst; reflexivity).
    rewrite Hp, Hf. split; [eexists; reflexivity|].
    change (layer_of (upd (set_layer hid "invalid")
               (upd (add_evidence
                 (mkEvidence (fresh_evidence_id (db st)) hid "logic_check"
                    (lower_string v) None false "" checks "L1" carrier)) st)) hid
            = Some "invalid").
    apply layer_of_set_layer. unfold holon_exists in *. simpl. exact Hex.
  - intros e Hin. unfold VerifyHypothesis. rewrite Hex. simpl. apply in_or_app. left. exact Hin.
Qed.

Section Closed.
Variable internalize : State -> State * Result.
Variable search : string -> string -> string -> string -> string -> Z -> State -> State * Result.
Variable resolve : ResolveInput -> State -> State * Result.
Variable implement : string -> State -> State * Result.
Variable manage_evidence : Phase -> string -> string -> string -> string -> string -> string ->
                           string -> Z -> State -> State * Result.
Variable audit_evidence : string -> string -> State -> State * Result.
Variable finalize_decision : string -> string -> list string -> string -> string -> string ->
                             string -> string -> string -> State -> State * Result.
Variable visualize_audit : string -> State -> State * Result.

Let T := spec_tools internalize search resolve implement manage_evidence audit_evidence
                    finalize_decision visualize_audit.

(** C8. A [quint_reset] call, for every state and every arguments map,
    succeeds, sets the in-memory and the persisted phase to IDLE, appends
    exactly one audit entry, of operation [cycle_reset], and leaves the
    holons (so the number of DRRs), the evidence, the relations and the
    waivers as they were. *)
Theorem reset_frame (st : State) (arguments : gmap string JSON) :
  let '(st', resp) := handleToolsCall T (Some ("quint_reset", arguments)) st in
  (exists o, resp = ToolResult o false) /\
  fsm_phase st' = PhaseIdle /\ fpf_phase (db st') = PhaseIdle /\
  (exists e, audit_log (db st') = app (audit_log (db st)) [e] /\
             a_operation e = "cycle_reset" /\ a_tool_name e = "quint_reset") /\
  holons (db st') = holons (db st) /\ drr_count (holons (db st')) = drr_count (holons (db st)) /\
  evidence (db st') = evidence (db st) /\ relations (db st') = relations (db st) /\
  waivers (db st') = waivers (db st).
Proof.
  unfold handleToolsCall. simpl.
  change (select "quint_reset" arguments) with (TC_Reset (arg arguments "reason")).
  simpl. repeat split; try reflexivity.
  - eexists. reflexivity.
  - eexists. split; [reflexivity|]. split; reflexivity.
Qed.

(** C9 (as the code does it), through [handleToolsCall]. A quint_link
    whose congruence_level reads as 0 is not rejected: it is answered
    exactly as the same link at level 3. A quint_link with any other level
    outside 1..3 fails with an [invalid_argument] tool error and leaves
    the state unchanged. A quint_propose whose dependency_cl is outside
    1..3 fails with an [invalid_argument] tool error; the only write left
    is the ABDUCTION phase the dispatcher saved before the body, so no
    holon and no relation edge is created. *)
Theorem cl_out_of_range (st : State) :
  (forall a, num_arg a "congruence_level" = Some 0%Z ->
     handleToolsCall T (Some ("quint_link", a)) st =
     let '(st', r) := LinkHolons (arg a "source_id") (arg a "target_id") 3 st in
     (st', match r with Ok o => ToolResult o false | Err e => ToolResult e true end)) /\
  (forall a cl, num_arg a "congruence_level" = Some cl -> cl <> 0%Z -> (cl < 1 \/ 3 < cl)%Z ->
     exists msg, handleToolsCall T (Some ("quint_link", a)) st = (st, ToolResult msg true) /\
                 String.prefix "invalid_argument" msg = true) /\
  (forall a cl, num_arg a "dependency_cl" = Some cl -> (cl < 1 \/ 3 < cl)%Z ->
     exists msg st',
       handleToolsCall T (Some ("quint_propose", a)) st = (st', ToolResult msg true) /\
       String.prefix "invalid_argument" msg = true /\
       st' = save_state (set_fsm_phase PhaseAbduction st) /\
       holons (db st') = holons (db st) /\ relations (db st') = relations (db st)).
Proof.
  assert (Hv : forall cl, (cl < 1 \/ 3 < cl)%Z -> valid_cl cl = false).
  { intros cl Hcl. unfold valid_cl. apply andb_false_iff.
    destruct Hcl; [left|right]; apply Z.leb_gt; lia. }
  split; [|split].
  - intros a Ha. unfold handleToolsCall. simpl CheckPreconditions. cbv iota beta.
    unfold select; simpl String.eqb; cbv iota. rewrite Ha. simpl default_Z.
    unfold run. simpl. unfold LinkHolons at 1. simpl Z.eqb. cbv iota beta zeta.
    unfold LinkHolons. simpl Z.eqb. cbv iota beta zeta.
    destruct (negb (valid_cl 3)); [reflexivity|].
    destruct (find_holon _ _); [|reflexivity].
    destruct (negb _); [reflexivity|]. destruct (creates_cycle _ _ _); reflexivity.
  - intros a cl Ha H0 Hcl. unfold handleToolsCall. simpl CheckPreconditions. cbv iota beta.
    unfold select; simpl String.eqb; cbv iota. rewrite Ha. simpl default_Z.
    unfold run. simpl. unfold LinkHolons. apply Z.eqb_neq in H0. rewrite H0, (Hv cl Hcl).
    simpl. eexists; split; reflexivity.
  - intros a cl Ha Hcl. unfold handleToolsCall. simpl CheckPreconditions. cbv iota beta.
    unfold select; simpl String.eqb; cbv iota. rewrite Ha. simpl default_Z.
    unfold run. simpl. unfold ProposeHypothesis. rewrite (Hv cl Hcl).
    destruct (negb (String.eqb (arg a "kind") "system" || String.eqb (arg a "kind") "episteme"));
      simpl; do 2 eexists; repeat split; reflexivity.
Qed.

End Closed.

End ToolFacts.

Module Witnesses.
Import Assurance Scenarios ToolModel.

(** C1 instance: [TestCalculateReliability_CLPenalty], final R_eff of A is 0.6. *)
Lemma single_dependency_cl_penalty_witness : final_score cl1_db now "A" = Some (6 # 10).
Proof.
  apply (proj2 (proj2 (AssuranceFacts.single_dependency_cl_penalty cl1_db now "A" "B"
           (pass_ev "e1" "A") (pass_ev "e2" "B") 1 ltac:(discriminate)
           eq_refl eq_refl eq_refl eq_refl eq_refl eq_refl))).
  reflexivity.
Defined.

(** C1 counterexample: with the edge at CL1 the final R_eff of A is not 0.7. *)
Lemma cl1_final_score_not_07 :
  match final_score cl1_db now "A" with Some q => ~ (q == 7 # 10)%Q | None => False end.
Proof. vm_compute. intro H. discriminate H. Qed.

(** C7 instance: [TestWLNK_MemberOf_NoPropagation]. *)
Lemma reff_independent_of_non_dependency_witness :
  CalculateReliability member_db1 now "good-member" =
  CalculateReliability member_db2 now "good-member" /\
  final_score member_db1 now "good-member" = Some (1 # 1).
Proof.
  split; [|vm_compute; reflexivity].
  apply (AssuranceFacts.reff_independent_of_non_dependency member_db1 member_db2 now
           "good-member" "bad-decision" eq_refl eq_refl).
  - intros h Hh. unfold holon_evidence, member_db1, member_db2, pass_ev.
    cbn [db_evidence List.filter ev_holon_id].
    destruct (String.eqb_spec "bad-decision" h); [congruence|reflexivity].
  - intro H. inversion H as [|x d cl t Hin Hr]. vm_compute in Hin. exact Hin.
Defined.

(** C3 counterexample: a successful [quint_calculate_r] call adds no audit entry. *)
Lemma calculate_r_success_writes_no_audit :
  let '(st', resp) := handleToolsCall tools_closed
                        (Some ("quint_calculate_r", args_of [("holon_id", JStr "A")])) st_ab in
  match resp with
  | ToolResult _ false => audit_log (db st') = audit_log (db st_ab) /\ audit_log (db st_ab) = []
  | _ => False
  end.
Proof. vm_compute. split; reflexivity. Qed.

(** C4 counterexample: propose with kind "bogus" from IDLE fails, yet the
    persisted phase is ABDUCTION afterwards. *)
Lemma failed_propose_persists_phase :
  let '(st', resp) := handleToolsCall tools_closed
                        (Some ("quint_propose", args_of [("title", JStr "X"); ("kind", JStr "bogus")]))
                        st_ab in
  match resp with
  | ToolResult _ true => fpf_phase (db st_ab) = PhaseIdle /\ fpf_phase (db st') = PhaseAbduction
  | _ => False
  end.
Proof. vm_compute. split; reflexivity. Qed.

(** C6 instance: verify PASS on A, which is at L0 with one stale item. *)
Lemma verify_layer_and_staleness_witness :
  layer_of st_ab "A" = Some "L0" /\
  layer_of (fst (VerifyHypothesis "A" "{}" "PASS" "" st_ab)) "A" = Some "L1" /\
  existsb ev_is_stale (evidence (db st_ab)) = true.
Proof.
  split; [reflexivity|]. split; [|reflexivity].
  destruct (ToolFacts.verify_layer_and_staleness st_ab "A" "{}" "" eq_refl) as [[_ [H _]] _].
  exact H.
Defined.

(** C9 counterexample: [quint_link] with congruence_level 0 succeeds and
    stores the edge at CL3. *)
Lemma link_cl0_creates_edge :
  let '(st', resp) := handleToolsCall tools_closed
                        (Some ("quint_link", args_of [("source_id", JStr "A"); ("target_id", JStr "B");
                                                      ("congruence_level", JNum 0)])) st_ab in
  match resp with
  | ToolResult _ false => relations (db st') = [mkRelation "A" "B" "componentOf" 3]
  | _ => False
  end.
Proof. vm_compute. reflexivity. Qed.

End Witnesses.

Module ServerFacts.
Import ExtraScenarios.

Definition listed_names : list string := map ts_name tools_list.

Lemma select_unknown (name : string) (a : gmap string JSON) :
  ~ In name listed_names -> select name a = TC_Unknown name.
Proof.
  intro Hn. unfold select.
  repeat match goal with
  | |- context [String.eqb name ?s] =>
      destruct (String.eqb_spec name s) as [->|?]; [exfalso; apply Hn; simpl; tauto|]
  end.
  reflexivity.
Qed.

Lemma select_listed (name : string) (a : gmap string JSON) :
  In name listed_names -> select name a <> TC_Unknown name.
Proof.
  intros Hin. simpl in Hin.
  repeat destruct Hin as [<-|Hin]; try contradiction; unfold select; simpl; discriminate.
Qed.

(** [tools/list] and [tools/call] agree: a name reaches a tool body
    exactly when [handleToolsList] lists it; every other name falls to
    the "unknown tool" case. *)
Theorem tools_list_matches_dispatch (name : string) (a : gmap string JSON) :
  select name a = TC_Unknown name <-> ~ In name (map ts_name tools_list).
Proof.
  split.
  - intros H Hin. exact (select_listed name a Hin H).
  - apply select_unknown.
Qed.

(** For every listed tool, the call the dispatcher builds depends only on
    the arguments the tool declares in its input schema: arguments that
    agree on the declared properties give the same call. *)
Theorem select_reads_only_declared (t : ToolSpec) :
  In t tools_list ->
  forall a1 a2 : gmap string JSON,
    (forall p, In p (map fst (ts_properties t)) -> a1 !! p = a2 !! p) ->
    select (ts_name t) a1 = select (ts_name t) a2.
Proof.
  intros Ht a1 a2 H. simpl in Ht.
  repeat destruct Ht as [<-|Ht]; try contradiction;
    simpl in H; unfold select; simpl;
    unfold arg, num_arg, bool_arg, string_list_arg;
    repeat (rewrite (H _) by (simpl; tauto)); reflexivity.
Qed.

Definition is_tools_call (l : Line) : bool :=
  match l with LRequest m _ _ => String.eqb m "tools/call" | _ => false end.

Lemma serve_line_state (T : Tools) (st : State) (l : Line) :
  fst (serve_line T st l) =
  match l with
  | LRequest m _ p => if String.eqb m "tools/call" then fst (handleToolsCall T p st) else st
  | _ => st
  end.
Proof.
  destruct l as [| |m id p]; try reflexivity. unfold serve_line.
  destruct (String.eqb m "initialize") eqn:E1.
  { apply String.eqb_eq in E1. subst. reflexivity. }
  destruct (String.eqb m "tools/list") eqn:E2.
  { apply String.eqb_eq in E2. subst. reflexivity. }
  destruct (String.eqb m "tools/call"); [destruct (handleToolsCall T p st); reflexivity|].
  destruct (String.eqb m "notifications/initialized"); [reflexivity|].
  destruct id; reflexivity.
Qed.

Lemma serve_line_out (T : Tools) (st : State) (l : Line) :
  length (snd (serve_line T st l)) <= 1.
Proof.
  destruct l as [| |m id p]; simpl; try lia.
  destruct (String.eqb m "initialize"); [simpl; lia|].
  destruct (String.eqb m "tools/list"); [simpl; lia|].
  destruct (String.eqb m "tools/call"); [destruct (handleToolsCall T p st); simpl; lia|].
  destruct (String.eqb m "notifications/initialized"); [simpl; lia|].
  destruct id; simpl; lia.
Qed.

(** One line of the loop of [Start]. Every line writes at most one
    response. initialize, tools/list and tools/call always get exactly
    one, carrying the request's id (null when the request has none).
    Another method gets "Method not found" (-32601) when the request has
    an id and nothing when it has none. Only a tools/call can change the
    server state. *)
Theorem serve_line_responses (T : Tools) (st : State) :
  (forall l rest, Start T st (InLine l :: rest) =
     (fst (Start T (fst (serve_line T st l)) rest),
      app (snd (serve_line T st l)) (snd (Start T (fst (serve_line T st l)) rest)))) /\
  (forall rest, Start T st (ScanFail :: rest) = (st, [])) /\
  (forall l, length (snd (serve_line T st l)) <= 1) /\
  (forall m id p, In m ["initialize"; "tools/list"; "tools/call"] ->
     exists o, snd (serve_line T st (LRequest m id p)) = [o] /\ out_id o = id) /\
  (forall m id p, ~ In m ["initialize"; "tools/list"; "tools/call"; "notifications/initialized"] ->
     (id = JNull -> snd (serve_line T st (LRequest m id p)) = []) /\
     (id <> JNull ->
        snd (serve_line T st (LRequest m id p)) = [OutError id (-32601) "Method not found"])) /\
  (forall l, is_tools_call l = false -> fst (serve_line T st l) = st).
Proof.
  split; [|split; [intros rest; reflexivity|]].
  { intros l rest. simpl. destruct (serve_line T st l) as [st1 o1]. simpl.
    destruct (Start T st1 rest); reflexivity. }
  split; [apply serve_line_out|]. split; [|split].
  - intros m id p Hm. simpl in Hm.
    destruct Hm as [<-|[<-|[<-|[]]]]; simpl.
    + eexists; split; reflexivity.
    + eexists; split; reflexivity.
    + destruct (handleToolsCall T p st) as [s [c msg|t b]]; eexists; split; reflexivity.
  - intros m id p Hm. simpl.
    destruct (String.eqb_spec m "initialize") as [->|_]; [simpl in Hm; tauto|].
    destruct (String.eqb_spec m "tools/list") as [->|_]; [simpl in Hm; tauto|].
    destruct (String.eqb_spec m "tools/call") as [->|_]; [simpl in Hm; tauto|].
    destruct (String.eqb_spec m "notifications/initialized") as [->|_]; [simpl in Hm; tauto|].
    split; intro Hid; [subst id; reflexivity|destruct id; try reflexivity; congruence].
  - intros l Hl. rewrite serve_line_state.
    destruct l as [| |m id p]; try reflexivity. simpl in Hl. rewrite Hl. reflexivity.
Qed.

(** [Start] over an input: the state it ends in is the one the
    tools/call requests among the lines read before the first failed
    [Scan] produce, run in order through [handleToolsCall]; the other
    lines, and every line from the failure on, do not touch it. It writes
    at most one response per line it read, and none for a line it could
    not read or any line after it. *)
Theorem start_state_and_output (T : Tools) (ins : list Input) (st : State) :
  fst (Start T st ins) =
    fold_left (fun s p => fst (handleToolsCall T p s)) (tool_calls (scanned ins)) st /\
  length (snd (Start T st ins)) <= length (scanned ins).
Proof.
  revert st. induction ins as [|[l|] ins IH]; intros st; [split; reflexivity| |split; reflexivity].
  simpl. pose proof (serve_line_state T st l) as Hs. pose proof (serve_line_out T st l) as Ho.
  destruct (serve_line T st l) as [st1 o1] eqn:E.
  destruct (IH st1) as [IH1 IH2].
  destruct (Start T st1 ins) as [st2 o2]. simpl in *. split.
  - rewrite IH1. subst st1. destruct l as [| |m id p]; try reflexivity.
    simpl. destruct (String.eqb m "tools/call"); reflexivity.
  - rewrite length_app. lia.
Qed.

(** A call to a tool name that [tools/list] does not list, once past the
    precondition check, changes nothing and answers with the tool error
    "unknown tool: <name>". *)
Theorem unknown_tool_no_effect (T : Tools) (name : string) (a : gmap string JSON) (st : State) :
  ~ In name (map ts_name tools_list) ->
  CheckPreconditions T name (string_args a) st = None ->
  handleToolsCall T (Some (name, a)) st = (st, ToolResult ("unknown tool: " ++ name) true).
Proof.
  intros Hn Hp. simpl. rewrite Hp. rewrite (select_unknown name a Hn). reflexivity.
Qed.

(** A quint_decide call that succeeds ends with both the in-memory and
    the persisted phase at IDLE, whatever the tool body did to them. *)
Theorem decide_success_returns_to_idle (T : Tools) (a : gmap string JSON) (st st' : State)
    (o : string) :
  handleToolsCall T (Some ("quint_decide", a)) st = (st', ToolResult o false) ->
  fsm_phase st' = PhaseIdle /\ fpf_phase (db st') = PhaseIdle.
Proof.
  simpl. destruct (CheckPreconditions T "quint_decide" (string_args a) st); [congruence|].
  change (select "quint_decide" a) with
    (TC_Decide (arg a "title") (arg a "winner_id") (string_list_arg a "rejected_ids")
       (arg a "context") (arg a "decision") (arg a "rationale") (arg a "consequences")
       (arg a "characteristics") (arg a "contract")).
  unfold run.
  destruct (invoke T _ _) as [s [r|e]]; simpl; intro H; inversion H; subst; split; reflexivity.
Qed.

End ServerFacts.

Module MigrationFacts.
Import Migrations.

Lemma prefix_iff (sub s : string) : String.prefix sub s = true <-> exists post, s = sub ++ post.
Proof.
  revert s. induction sub as [|a sub IH]; intros s; destruct s as [|b s]; simpl.
  - split; [intros _; exists ""; reflexivity|reflexivity].
  - split; [intros _; exists (String b s); reflexivity|reflexivity].
  - split; [discriminate|intros [post H]; discriminate].
  - destruct (Ascii.ascii_dec a b) as [->|Hab].
    + rewrite IH. split; intros [post H]; exists post.
      * rewrite H. reflexivity.
      * injection H as H. exact H.
    + split; [discriminate|intros [post H]; injection H as H _; congruence].
Qed.

Lemma str_contains_iff (s sub : string) :
  str_contains s sub = true <-> exists pre post, s = pre ++ sub ++ post.
Proof.
  induction s as [|a r IH]; cbn [str_contains]; rewrite orb_true_iff, prefix_iff.
  - split.
    + intros [[post H]|H]; [|discriminate]. exists "", post. exact H.
    + intros [pre [post H]]. left. destruct pre as [|b pre]; [exists post; exact H|discriminate].
  - rewrite IH. split.
    + intros [[post H]|[pre [post H]]].
      * exists "", post. exact H.
      * exists (String a pre), post. simpl. rewrite H. reflexivity.
    + intros [pre [post H]]. destruct pre as [|b pre].
      * left. exists post. exact H.
      * right. injection H as _ H. exists pre, post. exact H.
Qed.

(** [isDuplicateColumnError] holds of no nil error, and of a non-nil
    error exactly when its message contains "duplicate column" somewhere. *)
Theorem duplicate_column_error_iff (err : option string) :
  isDuplicateColumnError err = true <->
  exists msg pre post, err = Some msg /\ msg = pre ++ "duplicate column" ++ post.
Proof.
  destruct err as [msg|]; simpl.
  - rewrite str_contains_iff. split.
    + intros [pre [post H]]. exists msg, pre, post. split; [reflexivity|exact H].
    + intros [m [pre [post [E H]]]]. injection E as <-. exists pre, post. exact H.
  - split; [discriminate|intros [m [pre [post [E _]]]]; discriminate].
Qed.

Section Run.
Variable Tables : Type.
Variable exec : string -> Tables -> Tables * option string.

Local Abbreviation run := (run_migrations Tables exec).

Lemma recorded_In (v : Z) (c : Conn Tables) :
  version_recorded Tables v c = true <-> In v (schema_version Tables c).
Proof.
  unfold version_recorded. rewrite existsb_exists. split.
  - intros [x [Hx E]]. apply Z.eqb_eq in E. subst. exact Hx.
  - intros H. exists v. split; [exact H|apply Z.eqb_refl].
Qed.

Lemma NoDup_app_disjoint (l1 l2 : list Z) :
  NoDup l1 -> NoDup l2 -> (forall x, In x l1 -> ~ In x l2) -> NoDup (app l1 l2).
Proof.
  induction l1 as [|x l1 IH]; simpl; intros H1 H2 Hd; [exact H2|].
  inversion H1 as [|? ? Hx Hl1]; subst. constructor.
  - rewrite list_elem_of_In. intros Hc. apply in_app_or in Hc. rewrite list_elem_of_In in Hx.
    destruct Hc as [H|H]; [contradiction|exact (Hd x (or_introl eq_refl) H)].
  - apply IH; auto.
Qed.

Lemma run_prefix (ms : list Migration) (c : Conn Tables) :
  exists l, schema_version Tables (fst (run ms c)) = app (schema_version Tables c) l /\
    (forall v, In v l -> exists m, In m ms /\ m_version m = v) /\
    (forall v, In v l -> ~ In v (schema_version Tables c)) /\ NoDup l.
Proof.
  revert c. induction ms as [|m ms IH]; intros c; simpl.
  - exists []. rewrite app_nil_r. repeat split; try (intros v []); constructor.
  - destruct (version_recorded Tables (m_version m) c) eqn:R.
    + destruct (IH c) as [l [H1 [H2 [H3 H4]]]]. exists l. repeat split; auto.
      intros v Hv. destruct (H2 v Hv) as [m' [Hm' E]]. exists m'. split; [right|]; assumption.
    + destruct (exec (m_sql m) (tables Tables c)) as [t' err] eqn:X.
      assert (Hnot : ~ In (m_version m) (schema_version Tables c)).
      { rewrite <- recorded_In. congruence. }
      assert (Hstep : forall c', c' = mkConn Tables (app (schema_version Tables c) [m_version m]) t' ->
                exists l, schema_version Tables (fst (run ms c')) = app (schema_version Tables c) l /\
                  (forall v, In v l -> exists m0, In m0 (m :: ms) /\ m_version m0 = v) /\
                  (forall v, In v l -> ~ In v (schema_version Tables c)) /\ NoDup l).
      { intros c' ->. destruct (IH (mkConn Tables (app (schema_version Tables c) [m_version m]) t'))
          as [l [H1 [H2 [H3 H4]]]].
        exists (m_version m :: l). simpl in H1. rewrite H1, <- app_assoc. split; [reflexivity|].
        split; [|split].
        - intros v [<-|Hv]; [exists m; split; [left|]; reflexivity|].
          destruct (H2 v Hv) as [m' [Hm' E]]. exists m'. split; [right|]; assumption.
        - intros v [<-|Hv]; [exact Hnot|]. intro Hc. apply (H3 v Hv). simpl.
          apply in_or_app. left. exact Hc.
        - constructor; [|exact H4]. rewrite list_elem_of_In. intro Hc. apply (H3 _ Hc). simpl.
          apply in_or_app. right. left. reflexivity. }
      destruct err as [e|].
      * destruct (negb (isDuplicateColumnError (Some e))).
        -- exists []. simpl. rewrite app_nil_r. repeat split; try (intros v []); constructor.
        -- apply Hstep. reflexivity.
      * apply Hstep. reflexivity.
Qed.

(** [RunMigrations] only appends to [schema_version]: the versions it
    had stay, in their order; each version it adds belongs to a migration
    of the list and was not recorded before; so a [schema_version]
    without duplicate versions keeps none. *)
Theorem migrations_append_only (ms : list Migration) (c : Conn Tables) :
  let c' := fst (RunMigrations Tables exec ms c) in
  (exists l, schema_version Tables c' = app (schema_version Tables c) l /\
     forall v, In v l -> exists m, In m ms /\ m_version m = v) /\
  (NoDup (schema_version Tables c) -> NoDup (schema_version Tables c')).
Proof.
  cbv zeta. unfold RunMigrations.
  destruct (run_prefix ms c) as [l [H1 [H2 [H3 H4]]]]. split.
  - exists l. split; assumption.
  - intros Hn. rewrite H1. apply NoDup_app_disjoint; auto.
    intros x Hx Hl. exact (H3 x Hl Hx).
Qed.

Lemma recorded_mono (v : Z) (ms : list Migration) (c : Conn Tables) :
  version_recorded Tables v c = true -> version_recorded Tables v (fst (run ms c)) = true.
Proof.
  rewrite !recorded_In. intros H. destruct (run_prefix ms c) as [l [H1 _]].
  rewrite H1. apply in_or_app. left. exact H.
Qed.

Lemma run_all_recorded (ms : list Migration) (c : Conn Tables) :
  (forall m, In m ms -> version_recorded Tables (m_version m) c = true) -> run ms c = (c, None).
Proof.
  induction ms as [|m ms IH]; intros H; [reflexivity|]. simpl.
  rewrite (H m (or_introl eq_refl)). apply IH. intros m' Hm'. apply H. right. exact Hm'.
Qed.

Lemma run_success_recorded (ms : list Migration) (c c' : Conn Tables) :
  run ms c = (c', None) -> forall m, In m ms -> version_recorded Tables (m_version m) c' = true.
Proof.
  revert c. induction ms as [|m ms IH]; intros c Hr m0 Hm0; [destruct Hm0|]. simpl in Hr.
  destruct (version_recorded Tables (m_version m) c) eqn:R.
  - destruct Hm0 as [<-|Hm0]; [|exact (IH c Hr m0 Hm0)].
    pose proof (recorded_mono (m_version m) ms c R) as HM. rewrite Hr in HM. exact HM.
  - destruct (exec (m_sql m) (tables Tables c)) as [t' err] eqn:X.
    assert (Hk : run ms (mkConn Tables (app (schema_version Tables c) [m_version m]) t') = (c', None) ->
                 version_recorded Tables (m_version m0) c' = true).
    { intros Hr'. destruct Hm0 as [<-|Hm0]; [|exact (IH _ Hr' m0 Hm0)].
      pose proof (recorded_mono (m_version m) ms
                    (mkConn Tables (app (schema_version Tables c) [m_version m]) t')) as HM.
      rewrite Hr' in HM. apply HM. apply recorded_In. simpl. apply in_or_app. right. left.
      reflexivity. }
    destruct err as [e|]; [|exact (Hk Hr)].
    destruct (negb (isDuplicateColumnError (Some e))); [discriminate|exact (Hk Hr)].
Qed.

(** After a [RunMigrations] that returns nil, every migration of the list
    is recorded in [schema_version], and running it again executes no
    migration SQL, leaves the connection as it is and returns nil. *)
Theorem migrations_success_idempotent (ms : list Migration) (c c' : Conn Tables) :
  RunMigrations Tables exec ms c = (c', None) ->
  (forall m, In m ms -> version_recorded Tables (m_version m) c' = true) /\
  RunMigrations Tables exec ms c' = (c', None).
Proof.
  unfold RunMigrations. intros H. pose proof (run_success_recorded ms c c' H) as Hall.
  split; [exact Hall|]. apply run_all_recorded. exact Hall.
Qed.

Variable create_err : Conn Tables -> option string.
Variable query_err : Z -> Conn Tables -> option string.
Variable insert_err : Z -> Conn Tables -> option string.

Local Abbreviation run_f := (run_full Tables exec query_err insert_err).

Lemma query_skips (v : Z) (c : Conn Tables) :
  match query_err v c with None => version_recorded Tables v c | Some _ => false end = false ->
  query_err v c <> None \/ version_recorded Tables v c = false.
Proof. destruct (query_err v c); [left; discriminate|right; assumption]. Qed.

Lemma run_full_error (ms : list Migration) (c c' : Conn Tables) (err : string) :
  run_f ms c = (c', Some err) ->
  exists pre m post c0 r,
    ms = app pre (m :: post) /\ run_f pre c = (c0, None) /\
    (query_err (m_version m) c0 <> None \/ version_recorded Tables (m_version m) c0 = false) /\
    exec (m_sql m) (tables Tables c0) = (tables Tables c', r) /\
    schema_version Tables c' = schema_version Tables c0 /\
    ((exists e, r = Some e /\ isDuplicateColumnError r = false /\
        err = "migration " ++ pretty (m_version m) ++ " (" ++ m_description m ++ ") failed: " ++ e) \/
     ((r = None \/ isDuplicateColumnError r = true) /\
      exists e, insert_err (m_version m) c' = Some e /\
        err = "failed to record migration " ++ pretty (m_version m) ++ ": " ++ e)).
Proof.
  revert c. induction ms as [|m ms IH]; intros c H; [discriminate|].
  cbn [run_full] in H.
  destruct (match query_err (m_version m) c with
            | None => version_recorded Tables (m_version m) c | Some _ => false end) eqn:Q.
  - destruct (IH c H) as (pre & m0 & post & c0 & r & -> & H2 & H3).
    exists (m :: pre), m0, post, c0, r. split; [reflexivity|]. split; [|exact H3].
    cbn [run_full]. rewrite Q. exact H2.
  - apply query_skips in Q.
    destruct (exec (m_sql m) (tables Tables c)) as [t' r] eqn:X.
    assert (Hrec : forall e0, r = None \/ isDuplicateColumnError r = true ->
              insert_err (m_version m) (mkConn Tables (schema_version Tables c) t') = e0 ->
              match e0 with
              | Some e => (mkConn Tables (schema_version Tables c) t',
                           Some ("failed to record migration " ++ pretty (m_version m) ++ ": " ++ e))
              | None => run_f ms (mkConn Tables (app (schema_version Tables c) [m_version m]) t')
              end = (c', Some err) ->
              exists pre m0 post c0 r0,
                m :: ms = app pre (m0 :: post) /\ run_f pre c = (c0, None) /\
                (query_err (m_version m0) c0 <> None \/
                 version_recorded Tables (m_version m0) c0 = false) /\
                exec (m_sql m0) (tables Tables c0) = (tables Tables c', r0) /\
                schema_version Tables c' = schema_version Tables c0 /\
                ((exists e, r0 = Some e /\ isDuplicateColumnError r0 = false /\
                    err = "migration " ++ pretty (m_version m0) ++ " (" ++ m_description m0 ++
                          ") failed: " ++ e) \/
                 ((r0 = None \/ isDuplicateColumnError r0 = true) /\
                  exists e, insert_err (m_version m0) c' = Some e /\
                    err = "failed to record migration " ++ pretty (m_version m0) ++ ": " ++ e))).
    { intros e0 Hr HI H'. destruct e0 as [e|].
      - injection H' as <- <-. exists [], m, ms, c, r. simpl.
        split; [reflexivity|]. split; [reflexivity|]. split; [exact Q|]. split; [exact X|].
        split; [reflexivity|]. right. split; [exact Hr|]. exists e. split; [exact HI|reflexivity].
      - destruct (IH _ H') as (pre & m0 & post & c0 & r0 & -> & H2 & H3).
        exists (m :: pre), m0, post, c0, r0. split; [reflexivity|]. split; [|exact H3].
        cbn [run_full]. destruct (query_err (m_version m) c) eqn:Qe.
        + rewrite X. destruct Hr as [->|Hd]; [rewrite HI; exact H2|].
          destruct r as [e|]; [|discriminate]. rewrite Hd. simpl. rewrite HI. exact H2.
        + destruct Q as [Q|Q]; [congruence|]. rewrite Q, X.
          destruct Hr as [->|Hd]; [rewrite HI; exact H2|].
          destruct r as [e|]; [|discriminate]. rewrite Hd. simpl. rewrite HI. exact H2. }
    destruct r as [e|].
    + destruct (isDuplicateColumnError (Some e)) eqn:D.
      * exact (Hrec _ (or_intror eq_refl) eq_refl H).
      * simpl in H. injection H as <- <-. exists [], m, ms, c, (Some e). simpl.
        split; [reflexivity|]. split; [reflexivity|]. split; [exact Q|]. split; [exact X|].
        split; [reflexivity|]. left. exists e. split; [reflexivity|]. split; [exact D|reflexivity].
    + exact (Hrec _ (or_introl eq_refl) eq_refl H).
Qed.

(** With every error return of the source kept: when [RunMigrations]
    returns an error, either creating [schema_version] failed and nothing
    ran, or the loop stopped at one migration after the earlier ones went
    through. That migration was not skipped (its existence query failed or
    found no row); no later migration ran (the tables are those its SQL
    left); its version was not recorded; and the error is either its SQL
    error (not a duplicate column), wrapped as "migration N (desc) failed:
    ...", or, after its SQL succeeded or hit a duplicate column, the
    error of inserting its version, wrapped as "failed to record migration
    N: ...". *)
Theorem migrations_error_cases (ms : list Migration) (c c' : Conn Tables) (err : string) :
  RunMigrations_full Tables exec create_err query_err insert_err ms c = (c', Some err) ->
  (exists e, create_err c = Some e /\ c' = c /\ err = "failed to create schema_version table: " ++ e) \/
  (create_err c = None /\
   exists pre m post c0 r,
    ms = app pre (m :: post) /\ run_f pre c = (c0, None) /\
    (query_err (m_version m) c0 <> None \/ version_recorded Tables (m_version m) c0 = false) /\
    exec (m_sql m) (tables Tables c0) = (tables Tables c', r) /\
    schema_version Tables c' = schema_version Tables c0 /\
    ((exists e, r = Some e /\ isDuplicateColumnError r = false /\
        err = "migration " ++ pretty (m_version m) ++ " (" ++ m_description m ++ ") failed: " ++ e) \/
     ((r = None \/ isDuplicateColumnError r = true) /\
      exists e, insert_err (m_version m) c' = Some e /\
        err = "failed to record migration " ++ pretty (m_version m) ++ ": " ++ e))).
Proof.
  unfold RunMigrations_full. destruct (create_err c) as [e|] eqn:E; intros H.
  - left. injection H as <- <-. exists e. split; [reflexivity|]. split; reflexivity.
  - right. split; [reflexivity|]. exact (run_full_error ms c c' err H).
Qed.

(** When the statements on [schema_version] succeed (its creation, every
    existence query, and the insert of a version not yet recorded),
    [RunMigrations] with its error returns gives exactly the result of the
    loop in which only migration SQL can fail. *)
Theorem migrations_full_on_working_storage (ms : list Migration) (c : Conn Tables) :
  create_err c = None ->
  (forall v c0, query_err v c0 = None) ->
  (forall v c0, version_recorded Tables v c0 = false -> insert_err v c0 = None) ->
  RunMigrations_full Tables exec create_err query_err insert_err ms c =
  RunMigrations Tables exec ms c.
Proof.
  intros Hc HQ HI. unfold RunMigrations_full, RunMigrations. rewrite Hc. clear Hc.
  revert c. induction ms as [|m ms IH]; intros c; [reflexivity|].
  cbn [run_full run_migrations]. rewrite HQ.
  destruct (version_recorded Tables (m_version m) c) eqn:R; [apply IH|].
  destruct (exec (m_sql m) (tables Tables c)) as [t' r].
  assert (HI' : insert_err (m_version m) (mkConn Tables (schema_version Tables c) t') = None).
  { apply HI. exact R. }
  rewrite HI'.
  destruct r as [e|]; [|apply IH].
  destruct (negb (isDuplicateColumnError (Some e))); [reflexivity|apply IH].
Qed.

End Run.

End MigrationFacts.

Module ExtraWitnesses.
Import Scenarios ExtraScenarios Migrations.

(** Two argument maps that differ only in a key quint_link does not
    declare select the same call. *)
Lemma select_reads_only_declared_witness :
  select "quint_link" (args_of [("source_id", JStr "A"); ("target_id", JStr "B")]) =
  select "quint_link" (args_of [("source_id", JStr "A"); ("target_id", JStr "B");
                                 ("scope", JStr "ignored")]).
Proof.
  apply (ServerFacts.select_reads_only_declared
           (mkToolSpec "quint_link"
              (str_props ["source_id"; "target_id"] ++ [("congruence_level", "integer")])
              ["source_id"; "target_id"])).
  - simpl. tauto.
  - intros p Hp. simpl in Hp. destruct Hp as [<-|[<-|[<-|[]]]]; reflexivity.
Defined.

(** quint_bogus on [st_ab]: no precondition applies, nothing changes. *)
Lemma unknown_tool_no_effect_witness :
  handleToolsCall tools_closed (Some ("quint_bogus", args_of [])) st_ab =
  (st_ab, ToolResult "unknown tool: quint_bogus" true).
Proof.
  apply ServerFacts.unknown_tool_no_effect.
  - simpl. intuition discriminate.
  - vm_compute. reflexivity.
Defined.

(** A decide with winner A at L1, from DECISION with the persisted phase
    at AUDIT, ends with both phases at IDLE. *)
Lemma decide_success_returns_to_idle_witness :
  let '(st', r) := handleToolsCall tools_decide_ok
                     (Some ("quint_decide", args_of [("winner_id", JStr "A")])) st_l1 in
  r = ToolResult "decision recorded" false /\
  fsm_phase st_l1 = PhaseDecision /\ fpf_phase (db st_l1) = PhaseAudit /\
  fsm_phase st' = PhaseIdle /\ fpf_phase (db st') = PhaseIdle.
Proof.
  destruct (handleToolsCall tools_decide_ok _ st_l1) as [st' r] eqn:E.
  pose proof E as E2. vm_compute in E2. injection E2 as _ <-.
  split; [reflexivity|]. split; [reflexivity|]. split; [reflexivity|].
  exact (ServerFacts.decide_success_returns_to_idle tools_decide_ok _ st_l1 st' _ E).
Defined.

(** [ms_ok] from an empty [schema_version]: migration 1 hits a duplicate
    column and is recorded anyway; all three are recorded, and a second
    run changes nothing. *)
Lemma migrations_success_idempotent_witness :
  RunMigrations (list string) exec_log ms_ok (mkConn (list string) [] []) =
    (mkConn (list string) [1%Z; 2%Z; 3%Z] ["ALTER 2"; "CREATE 3"], None) /\
  RunMigrations (list string) exec_log ms_ok (mkConn (list string) [1%Z; 2%Z; 3%Z] ["ALTER 2"; "CREATE 3"]) =
    (mkConn (list string) [1%Z; 2%Z; 3%Z] ["ALTER 2"; "CREATE 3"], None).
Proof.
  assert (E : RunMigrations (list string) exec_log ms_ok (mkConn (list string) [] []) =
                (mkConn (list string) [1%Z; 2%Z; 3%Z] ["ALTER 2"; "CREATE 3"], None))
    by (vm_compute; reflexivity).
  split; [exact E|].
  exact (proj2 (MigrationFacts.migrations_success_idempotent (list string) exec_log ms_ok _ _ E)).
Defined.

(** [ms_ok] on storage whose insert of version 2 fails: migration 1
    hits a duplicate column and is recorded, migration 2 runs, its record
    fails, and migration 3 does not run. *)
Lemma migrations_error_cases_witness :
  let ins := fun (v : Z) (_ : Conn (list string)) =>
               if Z.eqb v 2 then Some "disk I/O error" else None in
  RunMigrations_full (list string) exec_log (fun _ => None) (fun _ _ => None) ins
    ms_ok (mkConn (list string) [] []) =
    (mkConn (list string) [1%Z] ["ALTER 2"], Some "failed to record migration 2: disk I/O error") /\
  ((exists e, (fun _ : Conn (list string) => @None string) (mkConn (list string) [] []) = Some e /\
     mkConn (list string) [1%Z] ["ALTER 2"] = mkConn (list string) [] [] /\
     "failed to record migration 2: disk I/O error" = "failed to create schema_version table: " ++ e) \/
   ((fun _ : Conn (list string) => @None string) (mkConn (list string) [] []) = None /\
    exists pre m post c0 r,
     ms_ok = app pre (m :: post) /\
     run_full (list string) exec_log (fun _ _ => None) ins pre (mkConn (list string) [] []) = (c0, None) /\
     ((fun _ _ => @None string) (m_version m) c0 <> None \/
      version_recorded (list string) (m_version m) c0 = false) /\
     exec_log (m_sql m) (tables (list string) c0) = (["ALTER 2"], r) /\
     [1%Z] = schema_version (list string) c0 /\
     ((exists e, r = Some e /\ isDuplicateColumnError r = false /\
         "failed to record migration 2: disk I/O error" =
         "migration " ++ pretty (m_version m) ++ " (" ++ m_description m ++ ") failed: " ++ e) \/
      ((r = None \/ isDuplicateColumnError r = true) /\
       exists e, ins (m_version m) (mkConn (list string) [1%Z] ["ALTER 2"]) = Some e /\
         "failed to record migration 2: disk I/O error" =
         "failed to record migration " ++ pretty (m_version m) ++ ": " ++ e)))).
Proof.
  intros ins.
  assert (E : RunMigrations_full (list string) exec_log (fun _ => None) (fun _ _ => None) ins
                ms_ok (mkConn (list string) [] []) =
              (mkConn (list string) [1%Z] ["ALTER 2"],
               Some "failed to record migration 2: disk I/O error"))
    by (vm_compute; reflexivity).
  split; [exact E|].
  exact (MigrationFacts.migrations_error_cases (list string) exec_log (fun _ => None)
           (fun _ _ => None) ins ms_ok _ _ _ E).
Defined.

(** On storage where no statement on [schema_version] fails, the run of
    [ms_ok] from an empty connection is the one of the loop without those
    errors. *)
Lemma migrations_full_on_working_storage_witness :
  RunMigrations_full (list string) exec_log (fun _ => None) (fun _ _ => None) (fun _ _ => None)
    ms_ok (mkConn (list string) [] []) =
  RunMigrations (list string) exec_log ms_ok (mkConn (list string) [] []).
Proof.
  apply MigrationFacts.migrations_full_on_working_storage;
    [reflexivity|intros; reflexivity|intros; reflexivity].
Defined.

End ExtraWitnesses.
